(** * SyEI medical-centre schema: storage-layer model and properties

    The source, [src/models/sqlalchemy_models.py], is a declarative schema:
    twelve mapped classes, their columns, foreign keys and table constraints,
    two table-lifecycle helpers and a sample-data seeder.  The development
    transcribes the declarations as data ([Table], [Column], [TableArg]),
    gives the storage layer its SQL meaning (insert, update, delete with the
    declared ON DELETE actions, create/drop of tables) and proves what the
    declarations enforce. *)

From stdpp Require Import gmap strings list fin_maps.
From Stdlib Require Import ZArith.

#[local] Open Scope string_scope.
#[local] Open Scope list_scope.
#[local] Open Scope Z_scope.

(** ** Values and column types *)

Inductive value :=
  | VNull
  | VUuid (u : N)
  | VStr (s : string)
  | VInt (z : Z)
  | VBool (b : bool)
  | VDateTime (t : Z)
  | VJson (doc : string).

#[global] Instance value_eq_dec : EqDecision value.
Proof. solve_decision. Defined.

Inductive ColType :=
  | UUID
  | String_ (n : nat)
  | Text
  | Integer
  | DateTime
  | Boolean
  | JSONB.

#[global] Instance ColType_eq_dec : EqDecision ColType.
Proof. solve_decision. Defined.

(** A naive datetime, encoded by an order-preserving map into [Z]. *)
Definition datetime (y m d : Z) : value := VDateTime ((y * 12 + (m - 1)) * 31 + (d - 1)).

(** ** SQL expressions built by the column operators *)

Inductive Operand :=
  | col (name : string)
  | lit (v : value).

Inductive Clause :=
  | ge (a b : Operand)
  | le (a b : Operand)
  | gt (a b : Operand)
  | in_ (a : Operand) (vs : list value).

#[global] Instance Operand_eq_dec : EqDecision Operand.
Proof. solve_decision. Defined.
#[global] Instance Clause_eq_dec : EqDecision Clause.
Proof. solve_decision. Defined.

(** ** Column and table declarations *)

Inductive OnDelete := CASCADE | SET_NULL.

#[global] Instance OnDelete_eq_dec : EqDecision OnDelete.
Proof. solve_decision. Defined.

Record ForeignKey := FK {
  fk_table : string;
  fk_column : string;
  ondelete : option OnDelete }.

#[global] Instance ForeignKey_eq_dec : EqDecision ForeignKey.
Proof. solve_decision. Defined.

Inductive ColumnDefault :=
  | generate_uuid
  | func_now
  | scalar (v : value).

#[global] Instance ColumnDefault_eq_dec : EqDecision ColumnDefault.
Proof. solve_decision. Defined.

Inductive kwarg :=
  | primary_key (b : bool)
  | unique (b : bool)
  | nullable (b : bool)
  | default_ (d : ColumnDefault)
  | onupdate (d : ColumnDefault).

Record Column := Col {
  col_name : string;
  col_type : ColType;
  col_fk : option ForeignKey;
  col_kwargs : list kwarg }.

Inductive TableArg :=
  | CheckConstraint (sqltext : Clause) (name : string)
  | UniqueConstraint (cols : list string) (name : string).

Record Table := Tbl {
  tablename : string;
  columns : list Column;
  table_args : list TableArg }.

(** The keyword arguments of [Column], read the way the mapper reads them:
    the first occurrence of a keyword, [nullable] defaulting to
    [not primary_key]. *)

Fixpoint kw_primary_key (kws : list kwarg) : bool :=
  match kws with
  | [] => false
  | primary_key b :: _ => b
  | _ :: rest => kw_primary_key rest
  end.

Fixpoint kw_unique (kws : list kwarg) : bool :=
  match kws with
  | [] => false
  | unique b :: _ => b
  | _ :: rest => kw_unique rest
  end.

Fixpoint kw_nullable (kws : list kwarg) : option bool :=
  match kws with
  | [] => None
  | nullable b :: _ => Some b
  | _ :: rest => kw_nullable rest
  end.

Fixpoint kw_default (kws : list kwarg) : option ColumnDefault :=
  match kws with
  | [] => None
  | default_ d :: _ => Some d
  | _ :: rest => kw_default rest
  end.

Fixpoint kw_onupdate (kws : list kwarg) : option ColumnDefault :=
  match kws with
  | [] => None
  | onupdate d :: _ => Some d
  | _ :: rest => kw_onupdate rest
  end.

Definition is_primary_key (c : Column) : bool := kw_primary_key (col_kwargs c).
Definition is_unique (c : Column) : bool := kw_unique (col_kwargs c).
Definition is_nullable (c : Column) : bool :=
  match kw_nullable (col_kwargs c) with
  | Some b => b
  | None => negb (is_primary_key c)
  end.
Definition column_default (c : Column) : option ColumnDefault := kw_default (col_kwargs c).
Definition column_onupdate (c : Column) : option ColumnDefault := kw_onupdate (col_kwargs c).

(** ** Errors and results

    What a statement of the storage layer, or a Python expression of the
    module, raises instead of returning. *)

Inductive Error :=
  | NoSuchTable (t : string)
  | TableExists (t : string)
  | UnknownColumn (t : string)
  | DataError (t c : string)
  | NotNullViolation (t c : string)
  | CheckViolation (t name : string)
  | UniqueViolation (t : string) (cols : list string)
  | ForeignKeyViolation (t c : string)
  | CascadeDepthExceeded
  | TypeError (msg : string).

Inductive result (A : Type) :=
  | Ok (a : A)
  | Err (e : Error).
Arguments Ok {A} a.
Arguments Err {A} e.

Definition bind {A B} (m : result A) (k : A → result B) : result B :=
  match m with
  | Ok a => k a
  | Err e => Err e
  end.

Notation "'let*' x ':=' m 'in' k" := (bind m (λ x, k))
  (at level 10, x pattern, m at level 100, k at level 200, only parsing).

Definition is_ok {A} (m : result A) : bool :=
  match m with Ok _ => true | Err _ => false end.

(** ** External collaborators

    Three things the module uses are defined outside the repository: what
    [bool()] of a clause object does when Python's [and] asks it of its left
    operand (it returns a truth value or raises), the random identifiers
    behind [generate_uuid] (the n-th draw of [uuid.uuid4]) and werkzeug's
    password hashing. *)

Class Collaborators := {
  clause_bool : Clause → result bool;
  uuid4 : nat → N;
  generate_password_hash : string → string }.

(** Python's [a and b]: [bool(a)] is evaluated first and what it raises is
    raised by the expression; the value is [b] when [bool(a)] holds and [a]
    otherwise. *)
Definition py_and `{Collaborators} (a b : Clause) : result Clause :=
  let* truth := clause_bool a in
  Ok (if truth : bool then b else a).

(** ** The mapped classes

    [relationship(...)] attributes are navigation helpers of the mapper and
    declare nothing at the storage layer; the columns, foreign keys and
    [__table_args__] are transcribed in source order.  (In FamilyMember the
    column named [relationship] rebinds that name inside the class body, so
    the [relationship(...)] calls below it call a Column as the source is
    written; the tables here are the declarations, read as data.) *)

Section Models.
Context `{Collaborators}.

Definition users_id : option ForeignKey := Some (FK "users" "id" None).

Definition User : Table := Tbl "users"
  [ Col "id" UUID None [primary_key true; default_ generate_uuid];
    Col "first_name" (String_ 100) None [nullable false];
    Col "last_name" (String_ 100) None [nullable false];
    Col "email" (String_ 255) None [unique true; nullable false];
    Col "password_hash" (String_ 255) None [nullable false];
    Col "role" (String_ 20) None [nullable false];
    Col "registration_date" DateTime None [default_ func_now];
    Col "is_active" Boolean None [default_ (scalar (VBool true))];
    Col "created_at" DateTime None [default_ func_now];
    Col "updated_at" DateTime None [default_ func_now; onupdate func_now];
    Col "created_by" UUID users_id [nullable true];
    Col "updated_by" UUID users_id [nullable true] ]
  [ CheckConstraint
      (in_ (col "role") [VStr "Admin"; VStr "Specialist"; VStr "Patient"; VStr "FamilyMember"])
      "valid_user_role" ].

Definition Specialist : Table := Tbl "specialists"
  [ Col "id" UUID None [primary_key true; default_ generate_uuid];
    Col "user_id" UUID (Some (FK "users" "id" (Some CASCADE))) [unique true; nullable false];
    Col "specialty" (String_ 100) None [nullable false];
    Col "description" Text None [nullable true];
    Col "phone_number" (String_ 20) None [nullable true];
    Col "professional_license" (String_ 100) None [nullable true];
    Col "bio" Text None [nullable true];
    Col "created_at" DateTime None [default_ func_now];
    Col "updated_at" DateTime None [default_ func_now; onupdate func_now];
    Col "created_by" UUID users_id [nullable true];
    Col "updated_by" UUID users_id [nullable true] ]
  [].

Definition Patient : Table := Tbl "patients"
  [ Col "id" UUID None [primary_key true; default_ generate_uuid];
    Col "user_id" UUID (Some (FK "users" "id" (Some CASCADE))) [unique true; nullable false];
    Col "date_of_birth" DateTime None [nullable false];
    Col "address" Text None [nullable true];
    Col "emergency_phone" (String_ 20) None [nullable true];
    Col "emergency_contact_name" (String_ 200) None [nullable true];
    Col "base_medical_history" Text None [nullable true];
    Col "created_at" DateTime None [default_ func_now];
    Col "updated_at" DateTime None [default_ func_now; onupdate func_now];
    Col "created_by" UUID users_id [nullable true];
    Col "updated_by" UUID users_id [nullable true] ]
  [].

Definition FamilyMember : Table := Tbl "family_members"
  [ Col "id" UUID None [primary_key true; default_ generate_uuid];
    Col "user_id" UUID (Some (FK "users" "id" (Some CASCADE))) [nullable false];
    Col "patient_id" UUID (Some (FK "patients" "id" (Some CASCADE))) [nullable false];
    Col "relationship" (String_ 50) None [nullable false];
    Col "created_at" DateTime None [default_ func_now];
    Col "updated_at" DateTime None [default_ func_now; onupdate func_now];
    Col "created_by" UUID users_id [nullable true];
    Col "updated_by" UUID users_id [nullable true] ]
  [ UniqueConstraint ["user_id"; "patient_id"] "unique_user_patient" ].

Definition Appointment : Table := Tbl "appointments"
  [ Col "id" UUID None [primary_key true; default_ generate_uuid];
    Col "specialist_id" UUID (Some (FK "specialists" "id" (Some CASCADE))) [nullable false];
    Col "patient_id" UUID (Some (FK "patients" "id" (Some CASCADE))) [nullable false];
    Col "start_datetime" DateTime None [nullable false];
    Col "end_datetime" DateTime None [nullable false];
    Col "status" (String_ 20) None [default_ (scalar (VStr "Pending")); nullable false];
    Col "appointment_type" (String_ 50) None [nullable false];
    Col "internal_notes" Text None [nullable true];
    Col "created_at" DateTime None [default_ func_now];
    Col "updated_at" DateTime None [default_ func_now; onupdate func_now];
    Col "created_by" UUID users_id [nullable true];
    Col "updated_by" UUID users_id [nullable true] ]
  [ CheckConstraint
      (in_ (col "status")
         [VStr "Pending"; VStr "Confirmed"; VStr "Canceled"; VStr "Completed"; VStr "NoShow"])
      "valid_appointment_status";
    CheckConstraint (gt (col "end_datetime") (col "start_datetime")) "valid_appointment_time" ].

Definition AvailabilityBlock_columns : list Column :=
  [ Col "id" UUID None [primary_key true; default_ generate_uuid];
    Col "specialist_id" UUID (Some (FK "specialists" "id" (Some CASCADE))) [nullable false];
    Col "day_of_week" Integer None [nullable false];
    Col "start_time" DateTime None [nullable false];
    Col "end_time" DateTime None [nullable false];
    Col "is_active" Boolean None [default_ (scalar (VBool true))];
    Col "exception_date" DateTime None [nullable true];
    Col "created_at" DateTime None [default_ func_now];
    Col "updated_at" DateTime None [default_ func_now; onupdate func_now];
    Col "created_by" UUID users_id [nullable true];
    Col "updated_by" UUID users_id [nullable true] ].

(** The expression handed to the first [CheckConstraint] of
    AvailabilityBlock, [day_of_week >= 1 and day_of_week <= 7]. *)
Definition valid_day_of_week_sqltext : result Clause :=
  py_and (ge (col "day_of_week") (lit (VInt 1))) (le (col "day_of_week") (lit (VInt 7))).

(** The class statement of AvailabilityBlock as it runs: [__table_args__] is
    a tuple built in the class body, so an argument that raises makes the
    class statement raise and nothing is declared. *)
Definition AvailabilityBlock_class : result Table :=
  let* sqltext := valid_day_of_week_sqltext in
  Ok (Tbl "availability_blocks" AvailabilityBlock_columns
        [ CheckConstraint sqltext "valid_day_of_week";
          CheckConstraint (gt (col "end_time") (col "start_time")) "valid_time_range" ]).

(** The availability_blocks table of the storage-level development: the
    columns as declared and the table arguments that can be constructed;
    valid_day_of_week is absent when its expression raises. *)
Definition AvailabilityBlock : Table := Tbl "availability_blocks"
  AvailabilityBlock_columns
  (match valid_day_of_week_sqltext with
   | Ok sqltext => [ CheckConstraint sqltext "valid_day_of_week" ]
   | Err _ => []
   end
   ++ [ CheckConstraint (gt (col "end_time") (col "start_time")) "valid_time_range" ]).

Definition MedicalRecord : Table := Tbl "medical_records"
  [ Col "id" UUID None [primary_key true; default_ generate_uuid];
    Col "patient_id" UUID (Some (FK "patients" "id" (Some CASCADE))) [nullable false];
    Col "specialist_id" UUID (Some (FK "specialists" "id" (Some CASCADE))) [nullable false];
    Col "record_date" DateTime None [default_ func_now; nullable false];
    Col "diagnosis" Text None [nullable true];
    Col "treatment" Text None [nullable true];
    Col "progress_notes" Text None [nullable true];
    Col "attached_files_json" JSONB None [nullable true];
    Col "created_at" DateTime None [default_ func_now];
    Col "updated_at" DateTime None [default_ func_now; onupdate func_now];
    Col "created_by" UUID users_id [nullable true];
    Col "updated_by" UUID users_id [nullable true] ]
  [].

Definition Template : Table := Tbl "templates"
  [ Col "id" UUID None [primary_key true; default_ generate_uuid];
    Col "specialist_id" UUID (Some (FK "specialists" "id" (Some SET_NULL))) [nullable true];
    Col "template_name" (String_ 200) None [nullable false];
    Col "content" Text None [nullable false];
    Col "template_type" (String_ 50) None [nullable false];
    Col "is_global" Boolean None [default_ (scalar (VBool false))];
    Col "created_at" DateTime None [default_ func_now];
    Col "updated_at" DateTime None [default_ func_now; onupdate func_now];
    Col "created_by" UUID users_id [nullable true];
    Col "updated_by" UUID users_id [nullable true] ]
  [].

Definition EducationalMaterial : Table := Tbl "educational_materials"
  [ Col "id" UUID None [primary_key true; default_ generate_uuid];
    Col "title" (String_ 200) None [nullable false];
    Col "description" Text None [nullable true];
    Col "content_url" Text None [nullable false];
    Col "material_type" (String_ 50) None [nullable false];
    Col "publish_date" DateTime None [default_ func_now];
    Col "specialist_id" UUID (Some (FK "specialists" "id" (Some SET_NULL))) [nullable true];
    Col "created_at" DateTime None [default_ func_now];
    Col "updated_at" DateTime None [default_ func_now; onupdate func_now];
    Col "created_by" UUID users_id [nullable true];
    Col "updated_by" UUID users_id [nullable true] ]
  [].

Definition PatientMaterialAssignment : Table := Tbl "patient_material_assignments"
  [ Col "id" UUID None [primary_key true; default_ generate_uuid];
    Col "patient_id" UUID (Some (FK "patients" "id" (Some CASCADE))) [nullable false];
    Col "material_id" UUID (Some (FK "educational_materials" "id" (Some CASCADE))) [nullable false];
    Col "assignment_date" DateTime None [default_ func_now; nullable false];
    Col "specialist_comments" Text None [nullable true];
    Col "created_at" DateTime None [default_ func_now];
    Col "updated_at" DateTime None [default_ func_now; onupdate func_now];
    Col "created_by" UUID users_id [nullable true];
    Col "updated_by" UUID users_id [nullable true] ]
  [ UniqueConstraint ["patient_id"; "material_id"] "unique_patient_material" ].

Definition Notification : Table := Tbl "notifications"
  [ Col "id" UUID None [primary_key true; default_ generate_uuid];
    Col "user_id" UUID (Some (FK "users" "id" (Some CASCADE))) [nullable false];
    Col "title" (String_ 200) None [nullable false];
    Col "message" Text None [nullable false];
    Col "notification_type" (String_ 50) None [nullable false];
    Col "is_read" Boolean None [default_ (scalar (VBool false))];
    Col "created_at" DateTime None [default_ func_now];
    Col "read_at" DateTime None [nullable true] ]
  [].

Definition AuditLog : Table := Tbl "audit_logs"
  [ Col "id" UUID None [primary_key true; default_ generate_uuid];
    Col "table_name" (String_ 100) None [nullable false];
    Col "record_id" UUID None [nullable false];
    Col "action" (String_ 20) None [nullable false];
    Col "old_values" JSONB None [nullable true];
    Col "new_values" JSONB None [nullable true];
    Col "user_id" UUID users_id [nullable true];
    Col "timestamp" DateTime None [default_ func_now] ]
  [ CheckConstraint
      (in_ (col "action") [VStr "INSERT"; VStr "UPDATE"; VStr "DELETE"])
      "valid_audit_action" ].

(** [Base.metadata]: the tables in the order the classes are declared. *)
Definition Base_metadata : list Table :=
  [ User; Specialist; Patient; FamilyMember; Appointment; AvailabilityBlock;
    MedicalRecord; Template; EducationalMaterial; PatientMaterialAssignment;
    Notification; AuditLog ].

End Models.

(** ** The store *)

Abbreviation Row := (gmap string value).

(** [tables]: the rows of every table that exists, in insertion order;
    [now]: what [func.now()] returns; [draws]: how many identifiers
    [uuid.uuid4] has handed out. *)
Record Store := mkStore {
  tables : gmap string (list Row);
  now : Z;
  draws : nat }.

Definition empty_store : Store := mkStore ∅ 0 0%nat.

Definition set_rows (s : Store) (t : string) (rows : list Row) : Store :=
  mkStore (<[t := rows]> (tables s)) (now s) (draws s).

Definition rows_of (s : Store) (t : string) : list Row :=
  default [] (tables s !! t).

Definition cell (r : Row) (c : string) : value := default VNull (r !! c).

(** ** Meaning of types, clauses and constraints *)

Definition has_type (v : value) (ty : ColType) : bool :=
  match v, ty with
  | VNull, _ => true
  | VUuid _, UUID => true
  | VStr s, String_ n => bool_decide (String.length s ≤ n)%nat
  | VStr _, Text => true
  | VInt z, Integer => bool_decide (-2147483648 ≤ z ≤ 2147483647)
  | VBool _, Boolean => true
  | VDateTime _, DateTime => true
  | VJson _, JSONB => true
  | _, _ => false
  end.

Definition operand_value (r : Row) (o : Operand) : value :=
  match o with
  | col c => cell r c
  | lit v => v
  end.

(** Ordering of two SQL values; [None] is SQL's UNKNOWN (a NULL operand).
    The ordering comparisons of this schema are between integers and
    between datetimes. *)
Definition compare_values (a b : value) : option comparison :=
  match a, b with
  | VInt x, VInt y => Some (x ?= y)
  | VDateTime x, VDateTime y => Some (x ?= y)
  | _, _ => None
  end.

Definition holds (r : Row) (c : Clause) : option bool :=
  match c with
  | ge a b =>
      cmp ← compare_values (operand_value r a) (operand_value r b);
      Some (match cmp with Lt => false | _ => true end)
  | le a b =>
      cmp ← compare_values (operand_value r a) (operand_value r b);
      Some (match cmp with Gt => false | _ => true end)
  | gt a b =>
      cmp ← compare_values (operand_value r a) (operand_value r b);
      Some (match cmp with Gt => true | _ => false end)
  | in_ a vs =>
      match operand_value r a with
      | VNull => None
      | v => Some (bool_decide (v ∈ vs))
      end
  end.

(** A CHECK constraint rejects a row only when its clause is FALSE. *)
Definition check_passes (r : Row) (c : Clause) : bool :=
  match holds r c with
  | Some false => false
  | _ => true
  end.

Definition is_null (v : value) : bool :=
  match v with VNull => true | _ => false end.

Definition column_names (T : Table) : list string := map col_name (columns T).

Definition check_failed (r : Row) (a : TableArg) : bool :=
  match a with
  | CheckConstraint c _ => negb (check_passes r c)
  | UniqueConstraint _ _ => false
  end.

(** The first row-level violation of [r], in the order the backend looks:
    the types of the values, NOT NULL, then the CHECK constraints. *)
Definition row_violation (T : Table) (r : Row) : option Error :=
  match List.find (λ c, negb (has_type (cell r (col_name c)) (col_type c))) (columns T) with
  | Some c => Some (DataError (tablename T) (col_name c))
  | None =>
  match List.find (λ c, negb (is_nullable c) && is_null (cell r (col_name c))) (columns T) with
  | Some c => Some (NotNullViolation (tablename T) (col_name c))
  | None =>
  match List.find (check_failed r) (table_args T) with
  | Some (CheckConstraint _ name) => Some (CheckViolation (tablename T) name)
  | _ => None
  end end end.

(** The column lists that must be unique: the primary key, every
    [unique=True] column, every [UniqueConstraint]. *)
Definition unique_keys (T : Table) : list (list string) :=
  map (λ c, [col_name c]) (List.filter (λ c, is_primary_key c || is_unique c) (columns T))
  ++ omap (λ a, match a with
                | UniqueConstraint cs _ => Some cs
                | CheckConstraint _ _ => None
                end) (table_args T).

(** Two rows collide on a key when they agree on all its columns and none
    of them is NULL. *)
Definition same_key (cs : list string) (r1 r2 : Row) : bool :=
  forallb (λ c, negb (is_null (cell r1 c)) && bool_decide (cell r1 c = cell r2 c)) cs.

Definition unique_violation (T : Table) (r : Row) (existing : list Row) : option Error :=
  match List.find (λ cs, existsb (same_key cs r) existing) (unique_keys T) with
  | Some cs => Some (UniqueViolation (tablename T) cs)
  | None => None
  end.

Definition resolves (s : Store) (f : ForeignKey) (v : value) : bool :=
  is_null v || existsb (λ p, bool_decide (cell p (fk_column f) = v)) (rows_of s (fk_table f)).

Definition dangling (s : Store) (r : Row) (c : Column) : bool :=
  match col_fk c with
  | Some f => negb (resolves s f (cell r (col_name c)))
  | None => false
  end.

Definition fk_violation (T : Table) (s : Store) (r : Row) : option Error :=
  match List.find (dangling s r) (columns T) with
  | Some c => Some (ForeignKeyViolation (tablename T) (col_name c))
  | None => None
  end.

(** ** Statements of the storage layer *)

Section Storage.
Context `{Collaborators}.

(** The value a column gets when the statement names none: the Python-side
    default, or NULL. *)
Definition apply_default (s : Store) (d : option ColumnDefault) : value * Store :=
  match d with
  | Some generate_uuid => (VUuid (uuid4 (draws s)), mkStore (tables s) (now s) (S (draws s)))
  | Some func_now => (VDateTime (now s), s)
  | Some (scalar v) => (v, s)
  | None => (VNull, s)
  end.

Fixpoint fill (cols : list Column) (kw : Row) (s : Store) : Row * Store :=
  match cols with
  | [] => (∅, s)
  | c :: rest =>
      let '(v, s1) :=
        match kw !! col_name c with
        | Some v => (v, s)
        | None => apply_default s (column_default c)
        end in
      let '(r, s2) := fill rest kw s1 in
      (<[col_name c := v]> r, s2)
  end.

Definition known_columns (T : Table) (kw : Row) : bool :=
  bool_decide (dom kw ⊆ (list_to_set (column_names T) : gset string)).

(** INSERT of one row given by keyword: returns the stored row. *)
Definition insert (T : Table) (kw : Row) (s : Store) : result (Row * Store) :=
  match tables s !! tablename T with
  | None => Err (NoSuchTable (tablename T))
  | Some existing =>
      if negb (known_columns T kw) then Err (UnknownColumn (tablename T)) else
      let '(r, s1) := fill (columns T) kw s in
      match row_violation T r with
      | Some e => Err e
      | None =>
      match unique_violation T r existing with
      | Some e => Err e
      | None =>
          let s2 := set_rows s1 (tablename T) (existing ++ [r]) in
          match fk_violation T s2 r with
          | Some e => Err e
          | None => Ok (r, s2)
          end
      end end
  end.

(** UPDATE ... SET changes WHERE w.  A touched row takes the new values and
    its [onupdate] columns unless the statement sets them. *)
Definition touch (T : Table) (changes : Row) (s : Store) (r : Row) : Row :=
  foldr (λ c acc,
           match column_onupdate c, changes !! col_name c with
           | Some d, None => <[col_name c := fst (apply_default s (Some d))]> acc
           | _, _ => acc
           end) (changes ∪ r) (columns T).

Definition retag (T : Table) (w : Row → bool) (changes : Row) (s : Store)
    (r : Row) : bool * Row :=
  if w r then (true, touch T changes s r) else (false, r).

Fixpoint first_error {A} (f : A → option Error) (l : list A) : option Error :=
  match l with
  | [] => None
  | x :: rest =>
      match f x with
      | Some e => Some e
      | None => first_error f rest
      end
  end.

(** Two rows of the new table collide on [cs] and at least one of them was
    written by the statement. *)
Fixpoint key_conflict (cs : list string) (tagged : list (bool * Row)) : bool :=
  match tagged with
  | [] => false
  | (b, r) :: rest =>
      existsb (λ '(b', r'), (b || b') && same_key cs r r') rest || key_conflict cs rest
  end.

(** The foreign keys that point at table [t]: referencing table and column. *)
Definition referrers (md : list Table) (t : string) : list (string * Column) :=
  flat_map (λ C,
    omap (λ c, match col_fk c with
               | Some f => if decide (fk_table f = t) then Some (tablename C, c) else None
               | None => None
               end) (columns C)) md.

Definition orphans (s : Store) (child : string * Column) : option Error :=
  if existsb (λ r, dangling s r child.2) (rows_of s child.1)
  then Some (ForeignKeyViolation child.1 (col_name child.2))
  else None.

Definition update (T : Table) (w : Row → bool) (changes : Row) (s : Store) : result Store :=
  match tables s !! tablename T with
  | None => Err (NoSuchTable (tablename T))
  | Some rows =>
      if negb (known_columns T changes) then Err (UnknownColumn (tablename T)) else
      let tagged := map (retag T w changes s) rows in
      match first_error (λ '(b, r), if b : bool then row_violation T r else None) tagged with
      | Some e => Err e
      | None =>
      match List.find (λ cs, key_conflict cs tagged) (unique_keys T) with
      | Some cs => Err (UniqueViolation (tablename T) cs)
      | None =>
          let s1 := set_rows s (tablename T) (map snd tagged) in
          match first_error (λ '(b, r), if b : bool then fk_violation T s1 r else None) tagged with
          | Some e => Err e
          | None =>
          match first_error (orphans s1) (referrers Base_metadata (tablename T)) with
          | Some e => Err e
          | None => Ok s1
          end end
      end end
  end.

(** A row of the referencing table points at one of the deleted rows. *)
Definition points_at (gone : list Row) (f : ForeignKey) (c : Column) (r : Row) : bool :=
  negb (is_null (cell r (col_name c)))
  && existsb (λ g, bool_decide (cell g (fk_column f) = cell r (col_name c))) gone.

Definition set_null (c : Column) (hit : Row → bool) (r : Row) : Row :=
  if hit r then <[col_name c := VNull]> r else r.

(** DELETE FROM t WHERE w, with the declared ON DELETE action of every
    foreign key that points at [t]: CASCADE deletes the referencing rows
    (recursively), SET NULL clears the reference, no action refuses the
    statement while a reference remains.  [fuel] bounds the depth of the
    cascade. *)
Fixpoint delete_where (fuel : nat) (md : list Table) (t : string) (w : Row → bool)
    (s : Store) : result Store :=
  match fuel with
  | O => Err CascadeDepthExceeded
  | S fuel' =>
      match tables s !! t with
      | None => Err (NoSuchTable t)
      | Some rows =>
          let gone := filter (λ r, w r) rows in
          let s1 := set_rows s t (filter (λ r, negb (w r)) rows) in
          foldl (λ acc child,
                   let* s' := acc in
                   let c := child.2 in
                   match col_fk c with
                   | None => Ok s'
                   | Some f =>
                       let hit := points_at gone f c in
                       match ondelete f with
                       | Some CASCADE => delete_where fuel' md child.1 hit s'
                       | Some SET_NULL =>
                           if existsb hit (rows_of s' child.1) && negb (is_nullable c)
                           then Err (NotNullViolation child.1 (col_name c))
                           else Ok (set_rows s' child.1 (map (set_null c hit) (rows_of s' child.1)))
                       | None =>
                           if existsb hit (rows_of s' child.1)
                           then Err (ForeignKeyViolation child.1 (col_name c))
                           else Ok s'
                       end
                   end)
                (Ok s1) (referrers md t)
      end
  end.

Definition delete (T : Table) (w : Row → bool) (s : Store) : result Store :=
  delete_where (length Base_metadata) Base_metadata (tablename T) w s.

(** ** Table lifecycle helpers *)

(** [MetaData.create_all(bind, checkfirst)]: CREATE TABLE for every table of
    the metadata; with [checkfirst] a table that is already there is
    skipped, without it the backend refuses the duplicate. *)
Definition create_all (md : list Table) (checkfirst : bool) (s : Store) : result Store :=
  foldl (λ acc T,
           let* s' := acc in
           match tables s' !! tablename T with
           | Some _ => if checkfirst then Ok s' else Err (TableExists (tablename T))
           | None => Ok (set_rows s' (tablename T) [])
           end) (Ok s) md.

(** [MetaData.drop_all(bind, checkfirst)]: DROP TABLE in reverse order. *)
Definition drop_all (md : list Table) (checkfirst : bool) (s : Store) : result Store :=
  foldl (λ acc T,
           let* s' := acc in
           match tables s' !! tablename T with
           | Some _ => Ok (mkStore (base.delete (tablename T) (tables s')) (now s') (draws s'))
           | None => if checkfirst then Ok s' else Err (NoSuchTable (tablename T))
           end) (Ok s) (rev md).

(** Both helpers call the metadata with the engine alone, so [checkfirst]
    keeps the value the metadata gives it when it is not passed. *)
Definition checkfirst_default : bool := true.

Definition create_tables (engine : Store) : result Store :=
  create_all Base_metadata checkfirst_default engine.

Definition drop_tables (engine : Store) : result Store :=
  drop_all Base_metadata checkfirst_default engine.
End Storage.

(** ** Sessions and the sample-data seeder *)

(** What a session holds: the store behind its engine, the mapped objects it
    was handed (an object is known by its position in [identity], so two
    names for one object see the same attributes) and the objects waiting
    for the next flush, in the order they were added. *)
Record Session := mkSession {
  store : Store;
  identity : list (Table * Row);
  pending : list nat }.

Definition session (engine : Store) : Session := mkSession engine [] [].

(** Session code threads the session and may raise. *)
Definition Run (A : Type) : Type := Session → Session * result A.

Definition ret {A} (a : A) : Run A := λ st, (st, Ok a).

Definition then_ {A B} (m : Run A) (k : A → Run B) : Run B :=
  λ st, match m st with
        | (st', Ok a) => k a st'
        | (st', Err e) => (st', Err e)
        end.

Notation "'do' x ← m ; k" := (then_ m (λ x, k))
  (at level 10, x pattern, m at level 100, k at level 200, only parsing).

Section Seeder.
Context `{Collaborators}.

(** [T(...)]: the constructor call, a new transient object. *)
Definition new (T : Table) (kw : list (string * value)) : Run nat :=
  λ st, (mkSession (store st) (identity st ++ [(T, list_to_map kw)]) (pending st),
         Ok (length (identity st))).

(** [session.add(obj)] *)
Definition add (obj : nat) : Run () :=
  λ st, (mkSession (store st) (identity st) (pending st ++ [obj]), Ok ()).

(** [obj.name] *)
Definition attr (obj : nat) (name : string) : Run value :=
  λ st, (st, Ok (match identity st !! obj with
                 | Some (_, r) => cell r name
                 | None => VNull
                 end)).

(** The flush: one INSERT per pending object, in the order of [add]; each
    object takes the values of its stored row. *)
Fixpoint flush (objs : list nat) (s : Store) (idm : list (Table * Row))
    : result (Store * list (Table * Row)) :=
  match objs with
  | [] => Ok (s, idm)
  | obj :: rest =>
      match idm !! obj with
      | None => flush rest s idm
      | Some (T, kw) =>
          let* (r, s') := insert T kw s in
          flush rest s' (<[obj := (T, r)]> idm)
      end
  end.

(** [session.commit()]: flush and commit; when a statement fails the
    transaction is rolled back, the store keeps what earlier commits
    wrote and the error is raised. *)
Definition commit : Run () :=
  λ st, match flush (pending st) (store st) (identity st) with
        | Ok (s', idm') => (mkSession s' idm' [], Ok ())
        | Err e => (mkSession (store st) (identity st) [], Err e)
        end.

(** The keyword arguments of the seeder's first object, the admin user. *)
Definition admin_user_kwargs : list (string * value) :=
  [ ("first_name", VStr "Admin");
    ("last_name", VStr "User");
    ("email", VStr "admin@medicalcenter.com");
    ("password_hash", VStr (generate_password_hash "admin123"));
    ("role", VStr "Admin") ].

Definition create_sample_data : Run () :=
  do admin_user ← new User
    [ ("first_name", VStr "Admin");
      ("last_name", VStr "User");
      ("email", VStr "admin@medicalcenter.com");
      ("password_hash", VStr (generate_password_hash "admin123"));
      ("role", VStr "Admin") ];
  do _ ← add admin_user;
  do specialist_user ← new User
    [ ("first_name", VStr "Dr. Sarah");
      ("last_name", VStr "Johnson");
      ("email", VStr "sarah.johnson@medicalcenter.com");
      ("password_hash", VStr (generate_password_hash "specialist123"));
      ("role", VStr "Specialist") ];
  do _ ← add specialist_user;
  do patient_user ← new User
    [ ("first_name", VStr "John");
      ("last_name", VStr "Doe");
      ("email", VStr "john.doe@email.com");
      ("password_hash", VStr (generate_password_hash "patient123"));
      ("role", VStr "Patient") ];
  do _ ← add patient_user;
  do _ ← commit;
  do specialist_user_id ← attr specialist_user "id";
  do specialist ← new Specialist
    [ ("user_id", specialist_user_id);
      ("specialty", VStr "Acupuncture");
      ("description", VStr "Licensed acupuncturist with 10+ years of experience");
      ("phone_number", VStr "+1-555-0123");
      ("professional_license", VStr "ACU-12345");
      ("bio", VStr "Dr. Sarah Johnson is a certified acupuncturist specializing in pain management and stress relief.") ];
  do _ ← add specialist;
  do patient_user_id ← attr patient_user "id";
  do patient ← new Patient
    [ ("user_id", patient_user_id);
      ("date_of_birth", datetime 1985 6 15);
      ("address", VStr "123 Main St, City, State 12345");
      ("emergency_phone", VStr "+1-555-9999");
      ("emergency_contact_name", VStr "Jane Doe");
      ("base_medical_history", VStr "No known allergies. Previous treatments include physical therapy for back pain.") ];
  do _ ← add patient;
  commit.
End Seeder.

(** ** Reachable stores *)

Inductive Statement :=
  | INSERT (T : Table) (kw : Row)
  | UPDATE (T : Table) (w : Row → bool) (changes : Row)
  | DELETE (T : Table) (w : Row → bool)
  | CREATE_TABLES
  | DROP_TABLES
  | ELAPSE (dt : Z).

Section Reachability.
Context `{Collaborators}.

Definition execute (q : Statement) (s : Store) : result Store :=
  match q with
  | INSERT T kw => let* (_, s') := insert T kw s in Ok s'
  | UPDATE T w changes => update T w changes s
  | DELETE T w => delete T w s
  | CREATE_TABLES => create_tables s
  | DROP_TABLES => drop_tables s
  | ELAPSE dt => Ok (mkStore (tables s) (now s + dt) (draws s))
  end.

(** A refused statement leaves the store as it was. *)
Definition apply_statement (q : Statement) (s : Store) : Store * option Error :=
  match execute q s with
  | Ok s' => (s', None)
  | Err e => (s, Some e)
  end.

(** A statement addresses one of the mapped tables. *)
Definition declared (q : Statement) : Prop :=
  match q with
  | INSERT T _ | UPDATE T _ _ | DELETE T _ => T ∈ Base_metadata
  | _ => True
  end.

Definition run_script (qs : list Statement) (s : Store) : result Store :=
  foldl (λ acc q, let* s' := acc in execute q s') (Ok s) qs.

(** The stores a client can produce: start from nothing and run accepted
    statements. *)
Inductive reachable : Store → Prop :=
  | reachable_empty : reachable empty_store
  | reachable_step q s s' :
      reachable s → declared q → execute q s = Ok s' → reachable s'.

(** No column of table [u] carries an ON DELETE SET NULL foreign key. *)
Definition no_set_null (md : list Table) (u : string) : bool :=
  forallb (λ C,
    negb (bool_decide (tablename C = u))
    || forallb (λ c, match col_fk c with
                     | Some f => negb (bool_decide (ondelete f = Some SET_NULL))
                     | None => true
                     end) (columns C)) md.

Definition rows_valid (T : Table) (s : Store) : Prop :=
  ∀ r, r ∈ rows_of s (tablename T) → row_violation T r = None.

Fixpoint keys_distinct (cs : list string) (rows : list Row) : Prop :=
  match rows with
  | [] => True
  | r :: rest => Forall (λ r', same_key cs r r' = false) rest ∧ keys_distinct cs rest
  end.

(** No two rows (at different positions) agree on all the columns [cs]. *)
Definition distinct_on (cs : list string) (rows : list Row) : Prop :=
  ∀ i j r1 r2,
    rows !! i = Some r1 → rows !! j = Some r2 →
    Forall (λ c, cell r1 c = cell r2 c) cs → i = j.

(** The errors an INSERT can report before it comes to a unique key other
    than the primary key: an unknown column, a value of the wrong type, a
    NULL in a NOT NULL column, a collision on the primary key. *)
Definition reported_before_key (t : string) (e : Error) : Prop :=
  e = UnknownColumn t ∨ (∃ c, e = DataError t c) ∨ (∃ c, e = NotNullViolation t c)
  ∨ e = UniqueViolation t ["id"].

(** Row [r] references, through its column [c], a row of table [t] that
    the statement DELETE FROM t WHERE w removes. *)
Definition refers_to_deleted (s : Store) (t : string) (w : Row → bool)
    (c : string) (r : Row) : Prop :=
  cell r c ≠ VNull ∧ ∃ p, p ∈ rows_of s t ∧ w p = true ∧ cell p "id" = cell r c.

Definition table_consistent (T : Table) (s : Store) : Prop :=
  rows_valid T s
  ∧ Forall (λ cs, keys_distinct cs (rows_of s (tablename T))) (unique_keys T).
End Reachability.

(** ** Rows that survive a DELETE

    [thinned R new old]: the list [new] is [old] with some rows dropped and
    every remaining row replaced by an [R]-related one, in the same order. *)



(** ** References between rows *)






(** ** Reading the declarations *)

Definition find_column (T : Table) (name : string) : option Column :=
  List.find (λ c, bool_decide (col_name c = name)) (columns T).

Definition constraint_named (T : Table) (name : string) : option Clause :=
  match List.find (λ a, match a with
                        | CheckConstraint _ n => bool_decide (n = name)
                        | UniqueConstraint _ _ => false
                        end) (table_args T) with
  | Some (CheckConstraint c _) => Some c
  | _ => None
  end.

(** An identifier column: primary key of the identifier type, generated by
    [generate_uuid]. *)
Definition has_generated_id (T : Table) : bool :=
  match find_column T "id" with
  | Some c => is_primary_key c && bool_decide (col_type c = UUID)
              && bool_decide (column_default c = Some generate_uuid)
  | None => false
  end.

Definition has_created_at (T : Table) : bool :=
  match find_column T "created_at" with
  | Some c => bool_decide (col_type c = DateTime)
              && bool_decide (column_default c = Some func_now)
  | None => false
  end.

Definition has_updated_at (T : Table) : bool :=
  match find_column T "updated_at" with
  | Some c => bool_decide (col_type c = DateTime)
              && bool_decide (column_default c = Some func_now)
              && bool_decide (column_onupdate c = Some func_now)
  | None => false
  end.

(** A nullable reference to a User under the given column name. *)
Definition user_reference (T : Table) (name : string) : bool :=
  match find_column T name with
  | Some c => is_nullable c
              && match col_fk c with
                 | Some f => bool_decide (fk_table f = "users" ∧ fk_column f = "id")
                 | None => false
                 end
  | None => false
  end.

Definition fully_audited (T : Table) : bool :=
  has_generated_id T && has_created_at T && has_updated_at T
  && user_reference T "created_by" && user_reference T "updated_by".

(** The day-of-week range the column comment and the constraint's name
    announce: 1 = Monday to 7 = Sunday. *)
Definition day_in_range (r : Row) : Prop :=
  ∃ d, cell r "day_of_week" = VInt d ∧ 1 ≤ d ≤ 7.

Definition ends_after_start (start_ end_ : string) (r : Row) : Prop :=
  ∃ a b, cell r start_ = VDateTime a ∧ cell r end_ = VDateTime b ∧ a < b.

(** [bool()] of a clause as the expression library defines it: its clause
    classes carry their own [__bool__], which returns a truth value only for
    [==] and [!=] and raises TypeError for every other operator; the clauses
    of this schema are ordering comparisons and [in_]. *)
Definition clause_bool_undefined : Clause → result bool :=
  λ _, Err (TypeError "Boolean value of this clause is not defined").

(** ** A reference environment and sample stores

    Used to run the definitions on concrete inputs: the expression library's
    [bool()], identifiers drawn as 0, 1, 2, ... and a hash that tags the
    password. *)

Definition reference_env : Collaborators :=
  {| clause_bool := clause_bool_undefined;
     uuid4 := N.of_nat;
     generate_password_hash := λ p, String.append "hash$" p |}.

Definition created_store : Store :=
  match create_tables (H := reference_env) empty_store with
  | Ok s => s
  | Err _ => empty_store
  end.

Definition seeded_store : Store :=
  store (create_sample_data (H := reference_env) (session created_store)).1.

Definition doctor_user : Row :=
  list_to_map
    [ ("first_name", VStr "Gregory"); ("last_name", VStr "House");
      ("email", VStr "house@medicalcenter.com"); ("password_hash", VStr "x");
      ("role", VStr "Doctor") ].

(** In [seeded_store] the specialist has identifier 3 and the patient 4. *)
Definition sample_appointment : Row :=
  list_to_map
    [ ("specialist_id", VUuid 3); ("patient_id", VUuid 4);
      ("start_datetime", datetime 2024 1 15); ("end_datetime", datetime 2024 1 16);
      ("appointment_type", VStr "Initial consultation") ].

(** Rows with explicit identifiers, so that nothing is drawn. *)
Definition manual_user : Row :=
  list_to_map
    [ ("id", VUuid 100); ("first_name", VStr "Ana"); ("last_name", VStr "Ruiz");
      ("email", VStr "ana.ruiz@medicalcenter.com"); ("password_hash", VStr "x");
      ("role", VStr "Specialist") ].

Definition manual_specialist : Row :=
  list_to_map
    [ ("id", VUuid 101); ("user_id", VUuid 100); ("specialty", VStr "Osteopathy") ].

Definition manual_block (day : Z) : Row :=
  list_to_map
    [ ("id", VUuid 102); ("specialist_id", VUuid 101); ("day_of_week", VInt day);
      ("start_time", datetime 2024 1 15); ("end_time", datetime 2024 1 16) ].

Definition inserted (m : result (Row * Store)) : Row * Store :=
  match m with
  | Ok p => p
  | Err _ => (∅, empty_store)
  end.

Definition the_store (m : result Store) : Store :=
  match m with
  | Ok s => s
  | Err _ => empty_store
  end.

Definition manual_patient_user : Row :=
  list_to_map
    [ ("id", VUuid 200); ("first_name", VStr "Luis"); ("last_name", VStr "Mora");
      ("email", VStr "luis.mora@email.com"); ("password_hash", VStr "x");
      ("role", VStr "Patient") ].

Definition manual_patient : Row :=
  list_to_map
    [ ("id", VUuid 201); ("user_id", VUuid 200); ("date_of_birth", datetime 1990 1 1) ].

Definition manual_appointment : Row :=
  list_to_map
    [ ("id", VUuid 300); ("specialist_id", VUuid 101); ("patient_id", VUuid 201);
      ("start_datetime", datetime 2024 1 15); ("end_datetime", datetime 2024 1 16);
      ("appointment_type", VStr "Follow-up") ].

(** Tables created, one specialist and one patient registered. *)
Definition staffed_script : list Statement :=
  [ CREATE_TABLES; INSERT User manual_user; INSERT Specialist manual_specialist;
    INSERT User manual_patient_user; INSERT Patient manual_patient ].

Definition staffed_store : Store :=
  the_store (run_script (H := reference_env) staffed_script empty_store).

Definition booked_store : Store :=
  the_store (execute (H := reference_env) (INSERT Appointment manual_appointment) staffed_store).

Definition booked_row : Row :=
  default ∅ (head (rows_of booked_store "appointments")).

(** A second patient, and one user registered as family member of both. *)
Definition second_patient_user : Row :=
  list_to_map
    [ ("id", VUuid 210); ("first_name", VStr "Eva"); ("last_name", VStr "Mora");
      ("email", VStr "eva.mora@email.com"); ("password_hash", VStr "x");
      ("role", VStr "Patient") ].

Definition second_patient : Row :=
  list_to_map
    [ ("id", VUuid 211); ("user_id", VUuid 210); ("date_of_birth", datetime 2015 3 2) ].

Definition relative_user : Row :=
  list_to_map
    [ ("id", VUuid 220); ("first_name", VStr "Marta"); ("last_name", VStr "Mora");
      ("email", VStr "marta.mora@email.com"); ("password_hash", VStr "x");
      ("role", VStr "FamilyMember") ].

Definition membership (id patient : N) : Row :=
  list_to_map
    [ ("id", VUuid id); ("user_id", VUuid 220); ("patient_id", VUuid patient);
      ("relationship", VStr "mother") ].

Definition family_script : list Statement :=
  staffed_script
  ++ [ INSERT User second_patient_user; INSERT Patient second_patient;
       INSERT User relative_user; INSERT FamilyMember (membership 230 201) ].

Definition one_membership_store : Store :=
  the_store (run_script (H := reference_env) family_script empty_store).

Definition two_memberships_store : Store :=
  the_store (execute (H := reference_env) (INSERT FamilyMember (membership 231 211))
               one_membership_store).

(** A second profile for the user of patient 201, under a new identifier. *)
Definition repeated_patient : Row :=
  list_to_map
    [ ("id", VUuid 202); ("user_id", VUuid 200); ("date_of_birth", datetime 1990 1 1) ].

Definition first_membership : Row :=
  default ∅ (rows_of two_memberships_store "family_members" !! 0%nat).

Definition second_membership : Row :=
  default ∅ (rows_of two_memberships_store "family_members" !! 1%nat).

Definition patient_201 (r : Row) : bool := bool_decide (cell r "id" = VUuid 201).

Definition seeded_session : Session :=
  (create_sample_data (H := reference_env) (session created_store)).1.












(** One hour after the booking, the appointment is confirmed. *)
Definition later_store : Store :=
  the_store (execute (H := reference_env) (ELAPSE 3600) booked_store).




(** * Properties *)

(** Membership in a list that is written out. *)
Ltac in_list :=
  repeat first [ apply list_elem_of_here | apply list_elem_of_further ].

(** Every statement of a script that is written out addresses a mapped
    table. *)
Ltac all_declared :=
  repeat apply Forall_cons_2; try apply Forall_nil_2;
  first [ exact I | unfold declared, Base_metadata; in_list ].

(** ** Rows, results and row-level checks *)

Lemma rows_of_set_rows s t rows u :
  rows_of (set_rows s t rows) u = if decide (t = u) then rows else rows_of s u.
Proof.
  unfold rows_of, set_rows; simpl.
  rewrite lookup_insert. by case_decide.
Qed.

Lemma rows_of_lookup s t rows : tables s !! t = Some rows → rows_of s t = rows.
Proof. unfold rows_of. by intros ->. Qed.

Lemma foldl_Err {A B} (f : result A → B → result A) (l : list B) e :
  (∀ x, f (Err e) x = Err e) → foldl f (Err e) l = Err e.
Proof. intros Hf. induction l as [|x l IH]; simpl; [done|]. by rewrite Hf. Qed.

Lemma find_None_Forall {A} (f : A → bool) (l : list A) :
  List.find f l = None ↔ Forall (λ x, f x = false) l.
Proof.
  induction l as [|x l IH]; simpl.
  - split; [constructor | done].
  - destruct (f x) eqn:E.
    + split; [done | inversion 1; congruence].
    + rewrite IH. split; [by constructor | by inversion 1].
Qed.

Lemma first_error_None {A} (f : A → option Error) (l : list A) :
  first_error f l = None ↔ Forall (λ x, f x = None) l.
Proof.
  induction l as [|x l IH]; simpl.
  - split; [constructor | done].
  - destruct (f x) eqn:E.
    + split; [done | inversion 1; congruence].
    + rewrite IH. split; [by constructor | by inversion 1].
Qed.

(** A row passes the row-level checks exactly when every value has the type
    of its column, no NOT NULL column is NULL and no CHECK clause is false. *)
Lemma row_violation_None T r :
  row_violation T r = None ↔
    Forall (λ c, has_type (cell r (col_name c)) (col_type c) = true
                 ∧ (is_nullable c = false → cell r (col_name c) ≠ VNull)) (columns T)
    ∧ Forall (λ a, check_failed r a = false) (table_args T).
Proof.
  unfold row_violation.
  destruct (List.find _ (columns T)) as [c|] eqn:E1.
  { split; [done|]. intros [Hc _]. apply find_some in E1 as [Hin Hbad].
    rewrite Forall_forall in Hc. apply list_elem_of_In, Hc in Hin as [Hty _].
    rewrite Hty in Hbad. done. }
  destruct (List.find _ (columns T)) as [c|] eqn:E2 in |- *.
  { split; [done|]. intros [Hc _]. apply find_some in E2 as [Hin Hbad].
    rewrite Forall_forall in Hc. apply list_elem_of_In, Hc in Hin as [_ Hnn].
    apply andb_true_iff in Hbad as [Hn Hnull].
    apply negb_true_iff in Hn. specialize (Hnn Hn).
    destruct (cell r (col_name c)); done. }
  apply find_None_Forall in E1, E2.
  destruct (List.find (check_failed r) (table_args T)) as [a|] eqn:E3.
  { apply find_some in E3 as [Hin Hbad]. destruct a as [chk name|]; [|done].
    split; [done|]. intros [_ Ha]. rewrite Forall_forall in Ha.
    apply list_elem_of_In, Ha in Hin. congruence. }
  apply find_None_Forall in E3. split; [|done]. intros _. split; [|done].
  rewrite Forall_forall in E1, E2 |- *. intros c Hc.
  specialize (E1 c Hc). specialize (E2 c Hc). simpl in *.
  apply negb_false_iff in E1. split; [done|].
  intros Hn Hnull. rewrite Hn, Hnull in E2. done.
Qed.

(** ** INSERT *)

Section InsertFacts.
Context `{Collaborators}.

Lemma apply_default_store s d :
  tables (apply_default s d).2 = tables s ∧ now (apply_default s d).2 = now s.
Proof. destruct d as [[| |v]|]; done. Qed.

Lemma fill_store cols kw s :
  tables (fill cols kw s).2 = tables s ∧ now (fill cols kw s).2 = now s.
Proof.
  revert s. induction cols as [|c cols IH]; intros s; simpl; [done|].
  destruct (kw !! col_name c) as [v|].
  - specialize (IH s). destruct (fill cols kw s) as [r s2]. done.
  - destruct (apply_default s (column_default c)) as [v s1] eqn:E.
    specialize (IH s1). destruct (fill cols kw s1) as [r s2]. simpl in *.
    pose proof (apply_default_store s (column_default c)) as Hd.
    rewrite E in Hd. simpl in Hd. destruct IH, Hd. split; congruence.
Qed.

(** A value the statement gives is the value stored. *)
Lemma fill_given cols kw s n v :
  n ∈ map col_name cols → kw !! n = Some v → (fill cols kw s).1 !! n = Some v.
Proof.
  revert s. induction cols as [|c cols IH]; intros s Hin Hkw; simpl in *.
  { by apply elem_of_nil in Hin. }
  destruct (decide (col_name c = n)) as [->|Hne].
  - rewrite Hkw. destruct (fill cols kw s) as [r s2]. simpl. apply lookup_insert_eq.
  - apply elem_of_cons in Hin as [?|Hin]; [congruence|].
    destruct (kw !! col_name c) as [v'|].
    + specialize (IH s Hin Hkw). destruct (fill cols kw s) as [r s2]. simpl in *.
      by rewrite lookup_insert_ne.
    + destruct (apply_default s (column_default c)) as [v' s1].
      specialize (IH s1 Hin Hkw). destruct (fill cols kw s1) as [r s2]. simpl in *.
      by rewrite lookup_insert_ne.
Qed.

(** A column the statement leaves out takes its scalar default. *)
Lemma fill_scalar_default cols kw s c v :
  NoDup (map col_name cols) → c ∈ cols →
  kw !! col_name c = None → column_default c = Some (scalar v) →
  (fill cols kw s).1 !! col_name c = Some v.
Proof.
  revert s. induction cols as [|c' cols IH]; intros s Hnd Hin Hkw Hd; simpl in *.
  { by apply elem_of_nil in Hin. }
  apply NoDup_cons in Hnd as [Hnotin Hnd].
  apply elem_of_cons in Hin as [<-|Hin].
  - rewrite Hkw, Hd. simpl. destruct (fill cols kw s) as [r s2]. simpl.
    apply lookup_insert_eq.
  - assert (col_name c' ≠ col_name c) as Hne.
    { intros Heq. apply Hnotin. rewrite Heq. by apply list_elem_of_fmap_2. }
    destruct (kw !! col_name c') as [v'|].
    + specialize (IH s Hnd Hin Hkw Hd). destruct (fill cols kw s) as [r s2]. simpl in *.
      by rewrite lookup_insert_ne.
    + destruct (apply_default s (column_default c')) as [v' s1].
      specialize (IH s1 Hnd Hin Hkw Hd). destruct (fill cols kw s1) as [r s2]. simpl in *.
      by rewrite lookup_insert_ne.
Qed.

(** What an accepted INSERT has checked and written. *)
Lemma insert_Ok T kw s r s' :
  insert T kw s = Ok (r, s') →
  ∃ existing,
    tables s !! tablename T = Some existing
    ∧ r = (fill (columns T) kw s).1
    ∧ row_violation T r = None
    ∧ unique_violation T r existing = None
    ∧ fk_violation T s' r = None
    ∧ tables s' = <[tablename T := existing ++ [r]]> (tables s)
    ∧ now s' = now s.
Proof.
  unfold insert. intros Hins.
  destruct (tables s !! tablename T) as [existing|]; [|done].
  destruct (negb (known_columns T kw)); [done|].
  pose proof (fill_store (columns T) kw s) as [Ht Hn].
  destruct (fill (columns T) kw s) as [r0 s1]. simpl in *.
  destruct (row_violation T r0) eqn:E1; [done|].
  destruct (unique_violation T r0 existing) eqn:E2; [done|].
  destruct (fk_violation T _ r0) eqn:E3; [done|].
  injection Hins as <- <-. exists existing.
  repeat split; try done; unfold set_rows; simpl; congruence.
Qed.

Lemma insert_rows_of T kw s r s' u :
  insert T kw s = Ok (r, s') →
  rows_of s' u = if decide (tablename T = u) then rows_of s u ++ [r] else rows_of s u.
Proof.
  intros (existing & Ht & _ & _ & _ & _ & Ht' & _)%insert_Ok.
  unfold rows_of. rewrite Ht', lookup_insert.
  case_decide; [subst u; by rewrite Ht | done].
Qed.
End InsertFacts.

Lemma row_violation_Some T r e :
  row_violation T r = Some e →
  (∃ c, e = DataError (tablename T) c)
  ∨ (∃ c, e = NotNullViolation (tablename T) c)
  ∨ (∃ chk name, In (CheckConstraint chk name) (table_args T)
                 ∧ check_passes r chk = false
                 ∧ e = CheckViolation (tablename T) name).
Proof.
  unfold row_violation.
  destruct (List.find _ (columns T)) as [c|]; [intros [= <-]; eauto|].
  destruct (List.find _ (columns T)) as [c|]; [intros [= <-]; eauto|].
  destruct (List.find (check_failed r) (table_args T)) as [[chk name|]|] eqn:E; [|done..].
  intros [= <-]. apply find_some in E as [Hin Hbad]. simpl in Hbad.
  apply negb_true_iff in Hbad. right; right. eauto.
Qed.

Lemma check_passes_row_violation T r chk name :
  row_violation T r = None → In (CheckConstraint chk name) (table_args T) →
  check_passes r chk = true.
Proof.
  intros [_ Ha]%row_violation_None Hin. rewrite Forall_forall in Ha.
  apply list_elem_of_In, Ha in Hin. simpl in Hin. by apply negb_false_iff in Hin.
Qed.

Lemma column_row_violation T r c :
  row_violation T r = None → In c (columns T) →
  has_type (cell r (col_name c)) (col_type c) = true
  ∧ (is_nullable c = false → cell r (col_name c) ≠ VNull).
Proof.
  intros [Hc _]%row_violation_None Hin. rewrite Forall_forall in Hc.
  by apply list_elem_of_In, Hc in Hin.
Qed.

Lemma ok_the_store m : is_ok m = true → m = Ok (the_store m).
Proof. by destruct m. Qed.

Lemma ok_inserted m : is_ok m = true → m = Ok ((inserted m).1, (inserted m).2).
Proof. by destruct m as [[r s]|]. Qed.

(** ** Claims about the declarations *)

Section DeclarationClaims.
Context `{Collaborators}.

(** C2 (as amended). The expression [day_of_week >= 1 and day_of_week <= 7]
    never yields the range check.  Python's [and] first asks [bool()] of
    the clause day_of_week >= 1: when that raises, the expression raises,
    the class statement raises with it and no constraint valid_day_of_week
    is declared; were it to return True the constraint would be the clause
    day_of_week <= 7 alone, passing exactly the days up to 7; were it to
    return False, the clause day_of_week >= 1 alone, passing exactly the
    days from 1. *)
Theorem valid_day_of_week_construction :
  (∀ e, clause_bool (ge (col "day_of_week") (lit (VInt 1))) = Err e →
        valid_day_of_week_sqltext = Err e
        ∧ AvailabilityBlock_class = Err e
        ∧ constraint_named AvailabilityBlock "valid_day_of_week" = None)
  ∧ (clause_bool (ge (col "day_of_week") (lit (VInt 1))) = Ok true →
       valid_day_of_week_sqltext = Ok (le (col "day_of_week") (lit (VInt 7)))
       ∧ constraint_named AvailabilityBlock "valid_day_of_week"
         = Some (le (col "day_of_week") (lit (VInt 7)))
       ∧ ∀ r d, cell r "day_of_week" = VInt d →
                check_passes r (le (col "day_of_week") (lit (VInt 7))) = true ↔ d ≤ 7)
  ∧ (clause_bool (ge (col "day_of_week") (lit (VInt 1))) = Ok false →
       valid_day_of_week_sqltext = Ok (ge (col "day_of_week") (lit (VInt 1)))
       ∧ constraint_named AvailabilityBlock "valid_day_of_week"
         = Some (ge (col "day_of_week") (lit (VInt 1)))
       ∧ ∀ r d, cell r "day_of_week" = VInt d →
                check_passes r (ge (col "day_of_week") (lit (VInt 1))) = true ↔ 1 ≤ d).
Proof.
  unfold constraint_named, AvailabilityBlock, AvailabilityBlock_class,
    valid_day_of_week_sqltext, py_and.
  split_and!.
  - intros e ->. done.
  - intros ->. split_and!; [done..|].
    intros r d Hd. unfold check_passes, holds. simpl. rewrite Hd. simpl.
    destruct (d ?= 7) eqn:E; simpl.
    + apply Z.compare_eq_iff in E. split; [lia|done].
    + rewrite Z.compare_lt_iff in E. split; [lia|done].
    + rewrite Z.compare_gt_iff in E. split; [done|lia].
  - intros ->. split_and!; [done..|].
    intros r d Hd. unfold check_passes, holds. simpl. rewrite Hd. simpl.
    destruct (d ?= 1) eqn:E; simpl.
    + apply Z.compare_eq_iff in E. split; [lia|done].
    + rewrite Z.compare_lt_iff in E. split; [done|lia].
    + rewrite Z.compare_gt_iff in E. split; [lia|done].
Qed.

(** What the class statement declares when it does not raise is the table
    of the storage-level development. *)
Lemma AvailabilityBlock_class_Ok T :
  AvailabilityBlock_class = Ok T → T = AvailabilityBlock.
Proof.
  unfold AvailabilityBlock_class, AvailabilityBlock.
  destruct valid_day_of_week_sqltext as [c|e]; [|done]. by intros [= <-].
Qed.

(** C4 (as amended). Every mapped class has a generated identifier; the
    ten classes other than Notification and AuditLog have created_at,
    updated_at and nullable created_by / updated_by references to users;
    Notification has created_at but no updated_at, created_by or
    updated_by; AuditLog has none of the four and carries a [timestamp]
    and a nullable [user_id] reference instead. *)
Theorem audit_columns_by_entity :
  Forall (λ T,
    has_generated_id T = true
    ∧ (tablename T ∉ ["notifications"; "audit_logs"] → fully_audited T = true)
    ∧ (tablename T = "notifications" →
         has_created_at T = true ∧ find_column T "updated_at" = None
         ∧ find_column T "created_by" = None ∧ find_column T "updated_by" = None)
    ∧ (tablename T = "audit_logs" →
         find_column T "created_at" = None ∧ find_column T "updated_at" = None
         ∧ find_column T "created_by" = None ∧ find_column T "updated_by" = None
         ∧ find_column T "timestamp" = Some (Col "timestamp" DateTime None [default_ func_now])
         ∧ user_reference T "user_id" = true)) Base_metadata.
Proof.
  unfold Base_metadata.
  repeat apply Forall_cons_2; [..|apply Forall_nil_2];
    (split; [by vm_compute|]);
    (split; [first [by (intros _; vm_compute)
                   | intros Hn; exfalso; apply Hn; set_solver]|]).
  all: split; intros Hname; try discriminate Hname; by vm_compute.
Qed.
End DeclarationClaims.

(** C2 as first stated fails: with [bool()] as the expression library
    defines it, the expression raises TypeError, the class statement raises
    and no constraint valid_day_of_week exists, so it is not the upper
    bound day_of_week <= 7. *)
Lemma valid_day_of_week_is_not_constructed :
  valid_day_of_week_sqltext (H := reference_env)
  = Err (TypeError "Boolean value of this clause is not defined")
  ∧ AvailabilityBlock_class (H := reference_env)
    = Err (TypeError "Boolean value of this clause is not defined")
  ∧ constraint_named (AvailabilityBlock (H := reference_env)) "valid_day_of_week"
    ≠ Some (le (col "day_of_week") (lit (VInt 7))).
Proof. split_and!; done. Qed.

(** C4 as first stated fails: Notification and AuditLog are mapped classes
    without the full set of audit columns. *)
Lemma notification_and_audit_log_not_fully_audited :
  Notification ∈ Base_metadata (H := reference_env)
  ∧ AuditLog ∈ Base_metadata (H := reference_env)
  ∧ fully_audited Notification = false
  ∧ fully_audited AuditLog = false
  ∧ ¬ Forall (λ T, fully_audited T = true) (Base_metadata (H := reference_env)).
Proof.
  split_and!; [set_solver|set_solver|done|done|].
  rewrite Forall_forall. intros Hall.
  specialize (Hall Notification ltac:(set_solver)). done.
Qed.

(** ** Claims about single statements *)

Section StatementClaims.
Context `{Collaborators}.

(** C10. An appointment inserted with no status value is stored with the
    status 'Pending': the row the INSERT returns carries it and is the row
    appended to the appointments table. *)
Theorem appointment_status_defaults_to_pending kw s r s' :
  insert Appointment kw s = Ok (r, s') →
  kw !! "status" = None →
  r !! "status" = Some (VStr "Pending")
  ∧ rows_of s' "appointments" = rows_of s "appointments" ++ [r].
Proof.
  intros Hins Hkw. split.
  - apply insert_Ok in Hins as (_ & _ & -> & _).
    apply (fill_scalar_default _ _ _
             (Col "status" (String_ 20) None
                [default_ (scalar (VStr "Pending")); nullable false]));
      [|set_solver|done..].
    apply (bool_decide_unpack _). by vm_compute.
  - by rewrite (insert_rows_of _ _ _ _ _ "appointments" Hins).
Qed.

(** C6. An INSERT into users whose role is a string outside
    {Admin, Specialist, Patient, FamilyMember} is refused, whatever the
    store and the other values: the statement fails no later than at the
    CHECK constraint valid_user_role (an earlier defect of the statement
    or of the row is reported instead when there is one), and the store
    is left as it was. *)
Theorem user_role_outside_set_rejected kw s role :
  kw !! "role" = Some (VStr role) →
  role ∉ ["Admin"; "Specialist"; "Patient"; "FamilyMember"] →
  ∃ e, insert User kw s = Err e
       ∧ (e = NoSuchTable "users" ∨ e = UnknownColumn "users"
          ∨ (∃ c, e = DataError "users" c) ∨ (∃ c, e = NotNullViolation "users" c)
          ∨ e = CheckViolation "users" "valid_user_role")
       ∧ apply_statement (INSERT User kw) s = (s, Some e).
Proof.
  intros Hkw Hrole.
  assert (∃ e, insert User kw s = Err e
       ∧ (e = NoSuchTable "users" ∨ e = UnknownColumn "users"
          ∨ (∃ c, e = DataError "users" c) ∨ (∃ c, e = NotNullViolation "users" c)
          ∨ e = CheckViolation "users" "valid_user_role")) as (e & He & Hshape).
  { unfold insert.
    destruct (tables s !! tablename User) as [existing|]; [|by eauto 10].
    destruct (negb (known_columns User kw)); [by eauto 10|].
    pose proof (fill_given (columns User) kw s "role" (VStr role)) as Hr.
    destruct (fill (columns User) kw s) as [r s1]. simpl in Hr.
    assert (cell r "role" = VStr role) as Hcell.
    { unfold cell. rewrite Hr; [done|set_solver|done]. }
    destruct (row_violation User r) as [e|] eqn:E.
    - exists e. split; [done|].
      apply row_violation_Some in E as [[c ->]|[[c ->]|(chk & name & Hin & _ & ->)]];
        [by eauto 10..|].
      simpl in Hin. destruct Hin as [[= <- <-]|[]]. by eauto 10.
    - exfalso.
      eapply check_passes_row_violation in E; [|by left].
      unfold check_passes, holds in E. simpl in E. rewrite Hcell in E.
      case_bool_decide as Hin; [|done]. apply Hrole.
      repeat (apply elem_of_cons in Hin as [[= ->]|Hin]; [set_solver|]).
      by apply elem_of_nil in Hin. }
  exists e. split_and!; [done..|].
  unfold apply_statement, execute. by rewrite He.
Qed.
End StatementClaims.

Lemma appointment_status_defaults_to_pending_witness :
  sample_appointment !! "status" = None
  ∧ is_ok (insert (H := reference_env) Appointment sample_appointment seeded_store) = true
  ∧ (inserted (insert (H := reference_env) Appointment sample_appointment seeded_store)).1
      !! "status" = Some (VStr "Pending").
Proof.
  assert (is_ok (insert (H := reference_env) Appointment sample_appointment seeded_store)
          = true) as Hok by (vm_compute; reflexivity).
  split; [vm_compute; reflexivity|]. split; [exact Hok|].
  apply ok_inserted in Hok.
  eapply (appointment_status_defaults_to_pending (H := reference_env)); [exact Hok|].
  vm_compute; reflexivity.
Defined.

Lemma user_role_outside_set_rejected_witness :
  doctor_user !! "role" = Some (VStr "Doctor")
  ∧ ∃ e, insert (H := reference_env) User doctor_user created_store = Err e
         ∧ (e = NoSuchTable "users" ∨ e = UnknownColumn "users"
            ∨ (∃ c, e = DataError "users" c) ∨ (∃ c, e = NotNullViolation "users" c)
            ∨ e = CheckViolation "users" "valid_user_role")
         ∧ apply_statement (H := reference_env) (INSERT User doctor_user) created_store
           = (created_store, Some e).
Proof.
  split; [by vm_compute|].
  apply (user_role_outside_set_rejected (H := reference_env) doctor_user created_store "Doctor").
  - by vm_compute.
  - apply (bool_decide_unpack _). by vm_compute.
Defined.

(** ** DELETE, UPDATE and the lifecycle helpers never add rows *)

Section DeleteFacts.
Context `{Collaborators}.

Lemma referrers_declared md t u c :
  (u, c) ∈ referrers md t →
  ∃ C f, C ∈ md ∧ tablename C = u ∧ c ∈ columns C ∧ col_fk c = Some f ∧ fk_table f = t.
Proof.
  unfold referrers. rewrite list_elem_of_In, in_flat_map.
  intros (C & HC & Hin). apply list_elem_of_In in HC, Hin.
  apply list_elem_of_omap in Hin as (c' & Hc' & Hsome).
  destruct (col_fk c') as [f|] eqn:Hf; [|done].
  case_decide; [|done]. injection Hsome as <- <-. eauto 10.
Qed.

Lemma no_set_null_column md u C c f :
  no_set_null md u = true → C ∈ md → tablename C = u → c ∈ columns C →
  col_fk c = Some f → ondelete f ≠ Some SET_NULL.
Proof.
  unfold no_set_null. rewrite forallb_forall.
  intros Hall HC Hname Hc Hf. apply list_elem_of_In, Hall in HC.
  rewrite bool_decide_true in HC by done. simpl in HC.
  rewrite forallb_forall in HC. apply list_elem_of_In, HC in Hc.
  rewrite Hf in Hc. apply negb_true_iff, bool_decide_eq_false in Hc. done.
Qed.

(** In a table none of whose columns is ON DELETE SET NULL, a DELETE
    anywhere only removes rows. *)
Lemma delete_where_sublist fuel md t w s s' u :
  no_set_null md u = true →
  delete_where fuel md t w s = Ok s' →
  rows_of s' u `sublist_of` rows_of s u.
Proof.
  intros Hns. revert t w s s'.
  induction fuel as [|fuel IH]; intros t w s s'; simpl; [done|].
  destruct (tables s !! t) as [rows|] eqn:Ht; [|done].
  set (gone := filter _ rows).
  assert (rows_of (set_rows s t (filter (λ r, negb (w r)) rows)) u
            `sublist_of` rows_of s u) as Hs1.
  { rewrite rows_of_set_rows. case_decide as Htu; [|done].
    subst u. rewrite (rows_of_lookup _ _ _ Ht). apply sublist_filter. }
  assert (Forall (λ child : string * Column,
                    child.1 = u → ∀ f, col_fk child.2 = Some f →
                                       ondelete f ≠ Some SET_NULL)
                 (referrers md t)) as Hch.
  { apply Forall_forall. intros [u' c] Hin Hu f Hf. simpl in *. subst u'.
    apply referrers_declared in Hin as (C & f' & HC & Hname & Hc & _ & _).
    by eapply no_set_null_column. }
  revert Hs1 Hch. generalize (set_rows s t (filter (λ r, negb (w r)) rows)).
  generalize (referrers md t). clear Ht.
  intros l. induction l as [|child l IHl]; intros acc Hacc Hch; simpl.
  { by intros [= <-]. }
  apply Forall_cons in Hch as [Hchild Hch].
  destruct (col_fk child.2) as [f|] eqn:Hf; [|by apply IHl].
  destruct (ondelete f) as [[]|] eqn:Hod.
  - destruct (delete_where fuel md child.1 (points_at gone f child.2) acc) as [s2|e] eqn:Hrec.
    + apply IHl; [|done]. etrans; [by eapply IH|done].
    + by rewrite foldl_Err.
  - destruct (existsb _ _ && _).
    + by rewrite foldl_Err.
    + apply IHl; [|done]. rewrite rows_of_set_rows. case_decide as Hu; [|done].
      exfalso. by eapply Hchild.
  - destruct (existsb _ _).
    + by rewrite foldl_Err.
    + by apply IHl.
Qed.

Lemma create_all_rows_of md s s' u :
  create_all md true s = Ok s' → rows_of s' u = rows_of s u.
Proof.
  unfold create_all. revert s. induction md as [|T md IH]; intros s; simpl.
  { by intros [= <-]. }
  destruct (tables s !! tablename T) as [rows|] eqn:Ht; [by apply IH|].
  intros Hfold. rewrite (IH _ Hfold), rows_of_set_rows.
  case_decide as Hu; [|done]. subst u. unfold rows_of. by rewrite Ht.
Qed.

Lemma drop_all_sublist md s s' u :
  drop_all md true s = Ok s' → rows_of s' u `sublist_of` rows_of s u.
Proof.
  unfold drop_all. generalize (rev md). clear md. intros md. revert s.
  induction md as [|T md IH]; intros s; simpl.
  { by intros [= <-]. }
  destruct (tables s !! tablename T) as [rows|] eqn:Ht; [|by apply IH].
  intros Hfold. etrans; [by eapply IH|].
  unfold rows_of at 1. simpl. rewrite lookup_delete.
  case_decide; [apply sublist_nil_l|done].
Qed.
End DeleteFacts.

(** ** Table invariants of the reachable stores *)

Section Invariants.
Context `{Collaborators}.

Lemma update_Ok T w changes s s' :
  update T w changes s = Ok s' →
  ∃ rows,
    tables s !! tablename T = Some rows
    ∧ Forall (λ br : bool * Row, br.1 = true → row_violation T br.2 = None)
             (map (retag T w changes s) rows)
    ∧ Forall (λ cs, key_conflict cs (map (retag T w changes s) rows) = false)
             (unique_keys T)
    ∧ tables s' = <[tablename T := map snd (map (retag T w changes s) rows)]> (tables s).
Proof.
  unfold update. intros Hup.
  destruct (tables s !! tablename T) as [rows|]; [|done].
  destruct (negb (known_columns T changes)); [done|].
  destruct (first_error _ _) eqn:E1 in Hup; [done|].
  destruct (List.find _ (unique_keys T)) eqn:E2 in Hup; [done|].
  destruct (first_error _ _) eqn:E3 in Hup; [done|].
  destruct (first_error _ _) eqn:E4 in Hup; [done|].
  injection Hup as <-. exists rows. split_and!; [done| | |done].
  - apply first_error_None in E1. eapply Forall_impl; [exact E1|].
    intros [b r] Hbr Hb. simpl in *. by subst b.
  - by apply find_None_Forall in E2.
Qed.

Lemma same_key_sym cs r1 r2 : same_key cs r1 r2 = same_key cs r2 r1.
Proof.
  unfold same_key. induction cs as [|c cs IH]; simpl; [done|].
  rewrite IH. f_equal.
  destruct (decide (cell r1 c = cell r2 c)) as [Heq|Hne].
  - rewrite Heq. by rewrite !bool_decide_true.
  - rewrite !bool_decide_false by congruence. by rewrite !andb_false_r.
Qed.

Lemma keys_distinct_sublist cs l1 l2 :
  l1 `sublist_of` l2 → keys_distinct cs l2 → keys_distinct cs l1.
Proof.
  induction 1 as [|x l1 l2 Hsub IH|x l1 l2 Hsub IH]; simpl; [done| |].
  - intros [Hx Hrest]. split; [|by apply IH].
    eapply Forall_forall. intros r Hr.
    rewrite Forall_forall in Hx. apply Hx. by eapply elem_of_sublist.
  - intros [_ Hrest]. by apply IH.
Qed.

Lemma keys_distinct_snoc cs l r :
  keys_distinct cs l → existsb (same_key cs r) l = false → keys_distinct cs (l ++ [r]).
Proof.
  induction l as [|x l IH]; simpl; [done|].
  intros [Hx Hrest] [Hrx Hrl]%orb_false_iff. split; [|by apply IH].
  apply Forall_app. split; [done|]. apply Forall_singleton.
  by rewrite same_key_sym.
Qed.

(** Rows the statement wrote collide with nobody; rows it left alone are
    the old ones. *)
Lemma keys_distinct_update cs T w changes s rows :
  keys_distinct cs rows →
  key_conflict cs (map (retag T w changes s) rows) = false →
  keys_distinct cs (map snd (map (retag T w changes s) rows)).
Proof.
  induction rows as [|r rows IH]; simpl; [done|].
  intros [Hr Hrest]. destruct (retag T w changes s r) as [b r'] eqn:Htag.
  intros [Hhead Htail]%orb_false_iff. split; [|by apply IH].
  apply Forall_forall. intros x Hx.
  apply list_elem_of_fmap in Hx as ([b2 r2] & -> & Hin). simpl.
  apply list_elem_of_fmap in Hin as (r0 & Htag0 & Hr0).
  destruct (same_key cs r' r2) eqn:Hsame; [|done]. exfalso.
  destruct (b || b2) eqn:Hb.
  - assert (existsb (λ '(b', r'0), (b || b') && same_key cs r' r'0)
              (map (retag T w changes s) rows) = true) as Hex; [|congruence].
    apply existsb_exists. exists (b2, r2). split.
    + apply list_elem_of_In, list_elem_of_fmap. eauto.
    + by rewrite Hb, Hsame.
  - apply orb_false_iff in Hb as [-> ->].
    unfold retag in Htag, Htag0.
    destruct (w r); [done|]. destruct (w r0); [done|].
    injection Htag as <-. injection Htag0 as <-.
    rewrite Forall_forall in Hr. specialize (Hr _ Hr0). congruence.
Qed.

Lemma metadata_names_distinct : NoDup (map tablename Base_metadata).
Proof. apply (bool_decide_unpack _). by vm_compute. Qed.

Lemma NoDup_fmap_inj {A B} (f : A → B) (l : list A) x y :
  NoDup (map f l) → x ∈ l → y ∈ l → f x = f y → x = y.
Proof.
  induction l as [|a l IH]; simpl; intros Hnd Hx Hy Hf.
  { by apply elem_of_nil in Hx. }
  apply NoDup_cons in Hnd as [Ha Hnd].
  apply elem_of_cons in Hx as [->|Hx]; apply elem_of_cons in Hy as [->|Hy]; [done| | |by apply IH].
  - exfalso. apply Ha. rewrite Hf. by apply list_elem_of_fmap_2.
  - exfalso. apply Ha. rewrite <- Hf. by apply list_elem_of_fmap_2.
Qed.

Lemma metadata_table_by_name T T' :
  T ∈ Base_metadata → T' ∈ Base_metadata → tablename T = tablename T' → T = T'.
Proof. apply NoDup_fmap_inj, metadata_names_distinct. Qed.

Lemma consistent_sublist T s s' :
  rows_of s' (tablename T) `sublist_of` rows_of s (tablename T) →
  table_consistent T s → table_consistent T s'.
Proof.
  intros Hsub [Hv Hk]. split.
  - intros r Hr. apply Hv. by eapply elem_of_sublist.
  - eapply Forall_impl; [exact Hk|]. intros cs. by apply keys_distinct_sublist.
Qed.

Lemma consistent_same_rows T s s' :
  rows_of s' (tablename T) = rows_of s (tablename T) →
  table_consistent T s → table_consistent T s'.
Proof. intros Heq. apply consistent_sublist. by rewrite Heq. Qed.

Lemma insert_consistent T' kw s r s' T :
  T' ∈ Base_metadata → T ∈ Base_metadata →
  insert T' kw s = Ok (r, s') → table_consistent T s → table_consistent T s'.
Proof.
  intros HT' HT Hins Hcons.
  destruct (decide (tablename T' = tablename T)) as [Hname|Hname].
  - apply (metadata_table_by_name _ _ HT' HT) in Hname as ->.
    pose proof (insert_rows_of _ _ _ _ _ (tablename T) Hins) as Hrows.
    rewrite decide_True in Hrows by done.
    apply insert_Ok in Hins as (existing & Ht & _ & Hrv & Huv & _).
    destruct Hcons as [Hv Hk]. split.
    + intros x. rewrite Hrows, elem_of_app, list_elem_of_singleton.
      intros [Hx| ->]; [by apply Hv|done].
    + rewrite Hrows, (rows_of_lookup _ _ _ Ht). rewrite (rows_of_lookup _ _ _ Ht) in Hk.
      unfold unique_violation in Huv.
      destruct (List.find _ (unique_keys T)) eqn:E in Huv; [done|].
      apply find_None_Forall in E.
      rewrite Forall_forall in Hk, E |- *. intros cs Hcs.
      apply keys_distinct_snoc; [by apply Hk|by apply E].
  - apply (consistent_same_rows T s s'); [|done].
    rewrite (insert_rows_of _ _ _ _ _ (tablename T) Hins). by rewrite decide_False.
Qed.

Lemma update_consistent T' w changes s s' T :
  T' ∈ Base_metadata → T ∈ Base_metadata →
  update T' w changes s = Ok s' → table_consistent T s → table_consistent T s'.
Proof.
  intros HT' HT (rows & Ht & Hrv & Hkc & Ht')%update_Ok Hcons.
  assert (rows_of s' (tablename T)
          = if decide (tablename T' = tablename T)
            then map snd (map (retag T' w changes s) rows)
            else rows_of s (tablename T)) as Hrows.
  { unfold rows_of. rewrite Ht', lookup_insert. by case_decide. }
  destruct (decide (tablename T' = tablename T)) as [Hname|Hname].
  - apply (metadata_table_by_name _ _ HT' HT) in Hname as ->.
    destruct Hcons as [Hv Hk]. unfold rows_valid in Hv.
    rewrite (rows_of_lookup _ _ _ Ht) in Hv, Hk. split.
    + intros x. rewrite Hrows. intros ([b x'] & -> & Hin)%list_elem_of_fmap.
      rewrite Forall_forall in Hrv. pose proof (Hrv _ Hin) as Hbx. simpl in *.
      apply list_elem_of_fmap in Hin as (r0 & Htag & Hr0).
      unfold retag in Htag. destruct (w r0).
      * injection Htag as -> ->. by apply Hbx.
      * injection Htag as -> ->. by apply Hv.
    + rewrite Hrows. rewrite Forall_forall in Hk, Hkc |- *. intros cs Hcs.
      apply keys_distinct_update; [by apply Hk|by apply Hkc].
  - by apply (consistent_same_rows T s s').
Qed.

Lemma execute_consistent q s s' T :
  declared q → T ∈ Base_metadata →
  no_set_null Base_metadata (tablename T) = true →
  execute q s = Ok s' → table_consistent T s → table_consistent T s'.
Proof.
  intros Hq HT Hns Hex.
  destruct q as [T' kw|T' w changes|T' w| | |dt]; simpl in Hex, Hq.
  - destruct (insert T' kw s) as [[r s'']|] eqn:Hins; [|done].
    injection Hex as <-. exact (insert_consistent _ _ _ _ _ _ Hq HT Hins).
  - exact (update_consistent _ _ _ _ _ _ Hq HT Hex).
  - apply consistent_sublist. exact (delete_where_sublist _ _ _ _ _ _ _ Hns Hex).
  - apply consistent_same_rows. exact (create_all_rows_of _ _ _ _ Hex).
  - apply consistent_sublist. exact (drop_all_sublist _ _ _ _ Hex).
  - injection Hex as <-. by apply consistent_same_rows.
Qed.

(** In every reachable store, every row of a mapped table without SET NULL
    columns passes the row-level checks of its declaration and no two rows
    collide on a declared key. *)
Lemma reachable_consistent s T :
  reachable s → T ∈ Base_metadata →
  no_set_null Base_metadata (tablename T) = true → table_consistent T s.
Proof.
  intros Hreach HT Hns. induction Hreach as [|q s s' _ IH Hq Hex].
  - split; [intros r Hr; by apply elem_of_nil in Hr|].
    apply Forall_forall. by intros cs _.
  - by eapply execute_consistent.
Qed.
End Invariants.

(** ** Claims about the reachable stores *)

Section ReachableClaims.
Context `{Collaborators}.

Lemma reachable_script qs s s' :
  reachable s → Forall declared qs → run_script qs s = Ok s' → reachable s'.
Proof.
  unfold run_script. intros Hs Hqs. revert s Hs.
  induction Hqs as [|q qs Hq _ IH]; intros s Hs; simpl.
  { by intros [= <-]. }
  destruct (execute q s) as [s1|e] eqn:Hex.
  - apply IH. by eapply reachable_step.
  - by rewrite foldl_Err.
Qed.

Lemma reachable_staffed_store : reachable staffed_store.
Proof.
  apply (reachable_script staffed_script empty_store);
    [constructor| |vm_compute; reflexivity].
  unfold staffed_script. all_declared.
Qed.

(** C5. In every reachable store, every row of the appointments table has
    datetimes in both columns and end_datetime after start_datetime. *)
Theorem appointment_ends_after_start s r :
  reachable s → r ∈ rows_of s "appointments" →
  ends_after_start "start_datetime" "end_datetime" r.
Proof.
  intros Hs Hr.
  destruct (reachable_consistent s Appointment Hs) as [Hv _];
    [set_solver|by vm_compute|].
  specialize (Hv r Hr).
  pose proof (column_row_violation _ _
                (Col "start_datetime" DateTime None [nullable false]) Hv) as [Hty1 Hnn1];
    [simpl; tauto|].
  pose proof (column_row_violation _ _
                (Col "end_datetime" DateTime None [nullable false]) Hv) as [Hty2 Hnn2];
    [simpl; tauto|].
  assert (check_passes r (gt (col "end_datetime") (col "start_datetime")) = true) as Hchk.
  { eapply (check_passes_row_violation _ _ _ "valid_appointment_time" Hv). simpl. tauto. }
  simpl in *. specialize (Hnn1 eq_refl). specialize (Hnn2 eq_refl).
  destruct (cell r "start_datetime") as [| | | | |a|] eqn:Ha; try done.
  destruct (cell r "end_datetime") as [| | | | |b|] eqn:Hb; try done.
  exists a, b. split_and!; [done..|].
  unfold check_passes, holds in Hchk. simpl in Hchk.
  rewrite Ha, Hb in Hchk. simpl in Hchk.
  destruct (b ?= a) eqn:E; try done. by apply Z.compare_gt_iff in E.
Qed.

Lemma accepted_block_is_stored d :
  is_ok (insert AvailabilityBlock (manual_block d) staffed_store) = true →
  ∃ s r, reachable s ∧ r ∈ rows_of s "availability_blocks"
         ∧ cell r "day_of_week" = VInt d.
Proof.
  intros Hins%ok_inserted.
  set (r := (inserted _).1) in Hins. set (s := (inserted _).2) in Hins.
  exists s, r. split_and!.
  - eapply (reachable_step (INSERT AvailabilityBlock (manual_block d)));
      [apply reachable_staffed_store|unfold declared, Base_metadata; in_list|].
    unfold execute. by rewrite Hins.
  - rewrite (insert_rows_of _ _ _ _ _ "availability_blocks" Hins).
    rewrite decide_True by done. apply elem_of_app. right. apply list_elem_of_here.
  - apply insert_Ok in Hins as (_ & _ & Hr & _). unfold cell. rewrite Hr.
    rewrite (fill_given _ _ _ "day_of_week" (VInt d)); [done| |done].
    unfold AvailabilityBlock, AvailabilityBlock_columns, columns, map, col_name. in_list.
Qed.

(** C1, what the code does.  The class statement of AvailabilityBlock
    either raises, because [bool()] of the clause day_of_week >= 1 raises,
    and then no constraint valid_day_of_week is declared; or it declares a
    table whose constraint keeps a single bound, and then some reachable
    store holds an availability block whose day_of_week lies outside
    [1,7] (day 0 under the upper bound alone, day 8 under the lower bound
    alone).  Either way the range 1..7 is not enforced. *)
Theorem availability_block_range_not_declared :
  match AvailabilityBlock_class with
  | Err e =>
      clause_bool (ge (col "day_of_week") (lit (VInt 1))) = Err e
      ∧ constraint_named AvailabilityBlock "valid_day_of_week" = None
  | Ok T =>
      T = AvailabilityBlock
      ∧ ∃ s r, reachable s ∧ r ∈ rows_of s "availability_blocks" ∧ ¬ day_in_range r
  end.
Proof.
  destruct AvailabilityBlock_class as [T|e] eqn:Hclass.
  - split; [by apply AvailabilityBlock_class_Ok|]. clear T Hclass.
    destruct (clause_bool (ge (col "day_of_week") (lit (VInt 1)))) as [[|]|e] eqn:Htruth.
    + destruct (accepted_block_is_stored 0) as (s & r & Hs & Hr & Hd).
      { unfold insert, AvailabilityBlock, valid_day_of_week_sqltext, py_and.
        rewrite Htruth. vm_compute; reflexivity. }
      exists s, r. split_and!; [done..|].
      intros (d & Hd' & Hrange). rewrite Hd in Hd'. injection Hd' as <-. lia.
    + destruct (accepted_block_is_stored 8) as (s & r & Hs & Hr & Hd).
      { unfold insert, AvailabilityBlock, valid_day_of_week_sqltext, py_and.
        rewrite Htruth. vm_compute; reflexivity. }
      exists s, r. split_and!; [done..|].
      intros (d & Hd' & Hrange). rewrite Hd in Hd'. injection Hd' as <-. lia.
    + destruct (accepted_block_is_stored 0) as (s & r & Hs & Hr & Hd).
      { unfold insert, AvailabilityBlock, valid_day_of_week_sqltext, py_and.
        rewrite Htruth. vm_compute; reflexivity. }
      exists s, r. split_and!; [done..|].
      intros (d & Hd' & Hrange). rewrite Hd in Hd'. injection Hd' as <-. lia.
  - unfold AvailabilityBlock_class, constraint_named, AvailabilityBlock,
      valid_day_of_week_sqltext, py_and in *.
    destruct (clause_bool (ge (col "day_of_week") (lit (VInt 1)))) as [truth|e']; [done|].
    injection Hclass as ->. done.
Qed.

(** The interval half of C1 does hold: availability blocks of reachable
    stores end after they start. *)
Lemma availability_block_ends_after_start s r :
  reachable s → r ∈ rows_of s "availability_blocks" →
  ends_after_start "start_time" "end_time" r.
Proof.
  intros Hs Hr.
  destruct (reachable_consistent s AvailabilityBlock Hs) as [Hv _];
    [unfold Base_metadata; in_list|by vm_compute|].
  specialize (Hv r Hr).
  pose proof (column_row_violation _ _
                (Col "start_time" DateTime None [nullable false]) Hv) as [Hty1 Hnn1];
    [simpl; tauto|].
  pose proof (column_row_violation _ _
                (Col "end_time" DateTime None [nullable false]) Hv) as [Hty2 Hnn2];
    [simpl; tauto|].
  assert (check_passes r (gt (col "end_time") (col "start_time")) = true) as Hchk.
  { eapply (check_passes_row_violation _ _ _ "valid_time_range" Hv).
    unfold AvailabilityBlock. cbn [table_args]. apply in_or_app. right. by left. }
  simpl in *. specialize (Hnn1 eq_refl). specialize (Hnn2 eq_refl).
  destruct (cell r "start_time") as [| | | | |a|] eqn:Ha; try done.
  destruct (cell r "end_time") as [| | | | |b|] eqn:Hb; try done.
  exists a, b. split_and!; [done..|].
  unfold check_passes, holds in Hchk. simpl in Hchk.
  rewrite Ha, Hb in Hchk. simpl in Hchk.
  destruct (b ?= a) eqn:E; try done. by apply Z.compare_gt_iff in E.
Qed.
End ReachableClaims.

Lemma appointment_ends_after_start_witness :
  reachable (H := reference_env) booked_store
  ∧ booked_row ∈ rows_of booked_store "appointments"
  ∧ ends_after_start "start_datetime" "end_datetime" booked_row.
Proof.
  assert (reachable (H := reference_env) booked_store) as Hreach.
  { eapply (reachable_step (INSERT Appointment manual_appointment));
      [apply reachable_staffed_store|simpl; set_solver|].
    apply ok_the_store. vm_compute; reflexivity. }
  assert (booked_row ∈ rows_of booked_store "appointments") as Hrow.
  { apply (bool_decide_unpack _). vm_compute; reflexivity. }
  split; [exact Hreach|]. split; [exact Hrow|].
  exact (appointment_ends_after_start (H := reference_env) booked_store booked_row Hreach Hrow).
Defined.

(** ** One sub-profile per user *)

Section SubProfiles.
Context `{Collaborators}.

Lemma keys_distinct_lookup cs rows i j r1 r2 :
  keys_distinct cs rows → (i < j)%nat →
  rows !! i = Some r1 → rows !! j = Some r2 → same_key cs r1 r2 = false.
Proof.
  revert i j. induction rows as [|r rows IH]; intros i j Hk Hij Hi Hj; [done|].
  destruct Hk as [Hr Hrest]. destruct j as [|j]; [lia|]. simpl in Hj.
  destruct i as [|i]; simpl in Hi.
  - injection Hi as ->. rewrite Forall_forall in Hr. apply Hr.
    by eapply list_elem_of_lookup_2.
  - apply (IH i j); [done|lia|done..].
Qed.

Lemma same_key_agree cs r1 r2 :
  Forall (λ c, cell r1 c ≠ VNull) cs → Forall (λ c, cell r1 c = cell r2 c) cs →
  same_key cs r1 r2 = true.
Proof.
  unfold same_key. induction cs as [|c cs IH]; [done|].
  intros [Hn Hns]%Forall_cons [He Hes]%Forall_cons. simpl.
  rewrite IH by done. rewrite bool_decide_true by done.
  destruct (cell r1 c); done.
Qed.

(** Distinct keys, read on positions: rows that are never NULL on [cs]
    and never collide on it differ on it. *)
Lemma keys_distinct_on cs rows :
  keys_distinct cs rows →
  (∀ r, r ∈ rows → Forall (λ c, cell r c ≠ VNull) cs) →
  distinct_on cs rows.
Proof.
  intros Hk Hnn i j r1 r2 Hi Hj Heq.
  destruct (Nat.lt_trichotomy i j) as [Hlt|[->|Hgt]]; [|done|]; exfalso.
  - pose proof (keys_distinct_lookup _ _ _ _ _ _ Hk Hlt Hi Hj) as Hdiff.
    rewrite same_key_agree in Hdiff; [done| |done].
    apply Hnn. by eapply list_elem_of_lookup_2.
  - pose proof (keys_distinct_lookup _ _ _ _ _ _ Hk Hgt Hj Hi) as Hdiff.
    rewrite same_key_agree in Hdiff; [done| |].
    + apply Hnn. by eapply list_elem_of_lookup_2.
    + eapply Forall_impl; [exact Heq|]. by intros c ->.
Qed.

(** A declared key of a mapped table is distinct in every reachable store,
    provided its columns are NOT NULL. *)
Lemma reachable_distinct_on s T cs :
  reachable s → T ∈ Base_metadata →
  no_set_null Base_metadata (tablename T) = true →
  cs ∈ unique_keys T →
  Forall (λ c, ∃ column, In column (columns T) ∧ col_name column = c
                         ∧ is_nullable column = false) cs →
  distinct_on cs (rows_of s (tablename T)).
Proof.
  intros Hs HT Hns Hcs Hcols.
  destruct (reachable_consistent s T Hs HT Hns) as [Hv Hk].
  apply keys_distinct_on.
  - rewrite Forall_forall in Hk. by apply Hk.
  - intros r Hr. specialize (Hv r Hr).
    eapply Forall_impl; [exact Hcols|]. intros c (column & Hin & <- & Hnull).
    by apply (column_row_violation _ _ _ Hv Hin).
Qed.

(** An INSERT whose key [cs] repeats the key of a stored row is refused,
    with the unique violation on [cs] unless an earlier check fails. *)
Lemma insert_repeated_key T kw s r0 cs :
  unique_keys T = [["id"]; cs] →
  (∀ r, List.find (check_failed r) (table_args T) = None) →
  r0 ∈ rows_of s (tablename T) →
  Forall (λ c, c ∈ column_names T ∧ cell r0 c ≠ VNull ∧ kw !! c = Some (cell r0 c)) cs →
  ∃ e, insert T kw s = Err e
       ∧ (e = UniqueViolation (tablename T) cs ∨ reported_before_key (tablename T) e).
Proof.
  intros Hkeys Hchecks Hr0 Hcs. unfold insert, reported_before_key.
  unfold rows_of in Hr0.
  destruct (tables s !! tablename T) as [existing|]; simpl in Hr0;
    [|by apply elem_of_nil in Hr0].
  destruct (negb (known_columns T kw)); [by eauto 10|].
  assert (Forall (λ c, cell (fill (columns T) kw s).1 c = cell r0 c) cs) as Hsame.
  { eapply Forall_impl; [exact Hcs|]. intros c (Hc & _ & Hkw). simpl in *.
    unfold cell at 1. by rewrite (fill_given _ _ _ c (cell r0 c)). }
  destruct (fill (columns T) kw s) as [r s1]. simpl in Hsame.
  destruct (row_violation T r) as [e|] eqn:E.
  { exists e. split; [done|].
    apply row_violation_Some in E as [[c ->]|[[c ->]|(chk & name & Hin & Hfail & ->)]];
      [by eauto 10..|].
    exfalso. specialize (Hchecks r). apply find_None_Forall in Hchecks.
    rewrite Forall_forall in Hchecks. apply list_elem_of_In, Hchecks in Hin.
    simpl in Hin. by rewrite Hfail in Hin. }
  unfold unique_violation. rewrite Hkeys. simpl.
  destruct (existsb (same_key ["id"] r) existing); [by eauto 10|].
  assert (existsb (same_key cs r) existing = true) as ->; [|by eauto 10].
  apply existsb_exists. exists r0. split; [by apply list_elem_of_In|].
  apply same_key_agree; [|done].
  rewrite Forall_forall in Hcs, Hsame |- *. intros c Hc.
  rewrite (Hsame c Hc). by apply Hcs.
Qed.

(** C3 (as amended). In every reachable store no two rows of specialists
    share a user_id and no two rows of patients do, and an INSERT into
    either table that repeats the user_id of a stored row is refused, with
    the unique violation on user_id unless an earlier check of the
    statement fails.  For family_members the unique key is the pair
    (user_id, patient_id): no two rows share the pair, and an INSERT that
    repeats the pair of a stored row is refused in the same way. *)
Theorem sub_profile_keys s :
  reachable s →
  distinct_on ["user_id"] (rows_of s "specialists")
  ∧ distinct_on ["user_id"] (rows_of s "patients")
  ∧ distinct_on ["user_id"; "patient_id"] (rows_of s "family_members")
  ∧ (∀ T kw r0,
       T = Specialist ∨ T = Patient →
       r0 ∈ rows_of s (tablename T) → kw !! "user_id" = Some (cell r0 "user_id") →
       ∃ e, insert T kw s = Err e
            ∧ (e = UniqueViolation (tablename T) ["user_id"]
               ∨ reported_before_key (tablename T) e))
  ∧ (∀ kw r0,
       r0 ∈ rows_of s "family_members" →
       kw !! "user_id" = Some (cell r0 "user_id") →
       kw !! "patient_id" = Some (cell r0 "patient_id") →
       ∃ e, insert FamilyMember kw s = Err e
            ∧ (e = UniqueViolation "family_members" ["user_id"; "patient_id"]
               ∨ reported_before_key "family_members" e)).
Proof.
  intros Hs.
  assert (∀ T c, T ∈ Base_metadata → In c (columns T) → is_nullable c = false →
                 no_set_null Base_metadata (tablename T) = true →
                 ∀ r, r ∈ rows_of s (tablename T) → cell r (col_name c) ≠ VNull) as Hnn.
  { intros T c HT Hc Hnull Hns r Hr.
    destruct (reachable_consistent s T Hs HT Hns) as [Hv _].
    by apply (column_row_violation _ _ _ (Hv r Hr) Hc). }
  split_and!.
  - apply (reachable_distinct_on s Specialist); [done|unfold Base_metadata; in_list|done| |].
    + unfold unique_keys; simpl. in_list.
    + apply Forall_cons_2; [|apply Forall_nil_2].
      eexists. split_and!; [right; left; done|done..].
  - apply (reachable_distinct_on s Patient); [done|unfold Base_metadata; in_list|done| |].
    + unfold unique_keys; simpl. in_list.
    + apply Forall_cons_2; [|apply Forall_nil_2].
      eexists. split_and!; [right; left; done|done..].
  - apply (reachable_distinct_on s FamilyMember); [done|unfold Base_metadata; in_list|done| |].
    + unfold unique_keys; simpl. in_list.
    + apply Forall_cons_2; [|apply Forall_cons_2; [|apply Forall_nil_2]].
      * eexists. split_and!; [right; left; done|done..].
      * eexists. split_and!; [right; right; left; done|done..].
  - intros T kw r0 [->| ->] Hr0 Hkw.
    + apply (insert_repeated_key Specialist kw s r0); [done|done|done|].
      apply Forall_cons_2; [|apply Forall_nil_2].
      split_and!; [unfold column_names; simpl; in_list| |done].
      apply (Hnn Specialist (Col "user_id" UUID (Some (FK "users" "id" (Some CASCADE)))
                               [unique true; nullable false]));
        [unfold Base_metadata; in_list|right; left; done|done..].
    + apply (insert_repeated_key Patient kw s r0); [done|done|done|].
      apply Forall_cons_2; [|apply Forall_nil_2].
      split_and!; [unfold column_names; simpl; in_list| |done].
      apply (Hnn Patient (Col "user_id" UUID (Some (FK "users" "id" (Some CASCADE)))
                            [unique true; nullable false]));
        [unfold Base_metadata; in_list|right; left; done|done..].
  - intros kw r0 Hr0 Hu Hp.
    apply (insert_repeated_key FamilyMember kw s r0); [done|done|done|].
    apply Forall_cons_2; [|apply Forall_cons_2; [|apply Forall_nil_2]].
    + split_and!; [unfold column_names; simpl; in_list| |done].
      apply (Hnn FamilyMember (Col "user_id" UUID (Some (FK "users" "id" (Some CASCADE)))
                                 [nullable false]));
        [unfold Base_metadata; in_list|right; left; done|done..].
    + split_and!; [unfold column_names; simpl; in_list| |done].
      apply (Hnn FamilyMember (Col "patient_id" UUID
                                 (Some (FK "patients" "id" (Some CASCADE)))
                                 [nullable false]));
        [unfold Base_metadata; in_list|right; right; left; done|done..].
Qed.
End SubProfiles.

Lemma reachable_one_membership_store : reachable (H := reference_env) one_membership_store.
Proof.
  apply (reachable_script (H := reference_env) family_script empty_store);
    [constructor| |apply ok_the_store; vm_compute; reflexivity].
  unfold family_script, staffed_script. cbn [app]. all_declared.
Qed.

Lemma sub_profile_keys_witness :
  reachable (H := reference_env) one_membership_store
  ∧ distinct_on ["user_id"] (rows_of one_membership_store "patients")
  ∧ (∃ e, insert (H := reference_env) Patient repeated_patient one_membership_store = Err e
          ∧ (e = UniqueViolation "patients" ["user_id"] ∨ reported_before_key "patients" e))
  ∧ insert (H := reference_env) Patient repeated_patient one_membership_store
    = Err (UniqueViolation "patients" ["user_id"]).
Proof.
  pose proof reachable_one_membership_store as Hreach.
  destruct (sub_profile_keys (H := reference_env) one_membership_store Hreach)
    as (_ & Hpatients & _ & Hinsert & _).
  split; [exact Hreach|]. split; [exact Hpatients|]. split; [|vm_compute; reflexivity].
  apply (Hinsert Patient repeated_patient
           (default ∅ (head (rows_of one_membership_store "patients")))).
  - by right.
  - apply (bool_decide_unpack _). vm_compute; reflexivity.
  - vm_compute; reflexivity.
Defined.

(** C3 as first stated fails for family_members: the same user is accepted
    as family member of two patients, so two rows share the user_id. *)
Lemma family_member_user_id_repeats :
  reachable (H := reference_env) two_memberships_store
  ∧ is_ok (insert (H := reference_env) FamilyMember (membership 231 211)
             one_membership_store) = true
  ∧ map (λ r, cell r "user_id") (rows_of two_memberships_store "family_members")
    = [VUuid 220; VUuid 220]
  ∧ ¬ distinct_on ["user_id"] (rows_of two_memberships_store "family_members").
Proof.
  split_and!.
  - eapply (reachable_step (H := reference_env) (INSERT FamilyMember (membership 231 211)));
      [apply reachable_one_membership_store|unfold declared, Base_metadata; in_list|].
    apply ok_the_store. vm_compute; reflexivity.
  - vm_compute; reflexivity.
  - vm_compute; reflexivity.
  - intros Hd.
    specialize (Hd 0%nat 1%nat first_membership second_membership).
    discriminate Hd; [vm_compute; reflexivity..|].
    apply Forall_cons_2; [vm_compute; reflexivity|apply Forall_nil_2].
Qed.

(** ** ON DELETE actions *)

Section Cascades.
Context `{Collaborators}.

Lemma delete_where_unfold fuel md t w s :
  delete_where (S fuel) md t w s
  = match tables s !! t with
    | None => Err (NoSuchTable t)
    | Some rows =>
        let gone := filter (λ r, w r) rows in
        foldl (λ acc child,
                 let* s' := acc in
                 let c := child.2 in
                 match col_fk c with
                 | None => Ok s'
                 | Some f =>
                     let hit := points_at gone f c in
                     match ondelete f with
                     | Some CASCADE => delete_where fuel md child.1 hit s'
                     | Some SET_NULL =>
                         if existsb hit (rows_of s' child.1) && negb (is_nullable c)
                         then Err (NotNullViolation child.1 (col_name c))
                         else Ok (set_rows s' child.1 (map (set_null c hit) (rows_of s' child.1)))
                     | None =>
                         if existsb hit (rows_of s' child.1)
                         then Err (ForeignKeyViolation child.1 (col_name c))
                         else Ok s'
                     end
                 end)
              (Ok (set_rows s t (filter (λ r, negb (w r)) rows))) (referrers md t)
    end.
Proof. reflexivity. Qed.

Lemma delete_where_leaf fuel md t w s rows :
  referrers md t = [] → tables s !! t = Some rows →
  delete_where (S fuel) md t w s = Ok (set_rows s t (filter (λ r, negb (w r)) rows)).
Proof. intros Href Ht. simpl. by rewrite Ht, Href. Qed.

Lemma points_at_refers s t (w : Row → bool) rows f c r :
  tables s !! t = Some rows → fk_column f = "id" →
  points_at (filter (λ p, w p) rows) f c r = true
  ↔ refers_to_deleted s t w (col_name c) r.
Proof.
  intros Ht Hf. unfold points_at, refers_to_deleted.
  rewrite (rows_of_lookup _ _ _ Ht), andb_true_iff, negb_true_iff, existsb_exists, Hf.
  split.
  - intros [Hnull (p & Hp & Heq)]. split; [by intros Hn; rewrite Hn in Hnull|].
    apply list_elem_of_In, list_elem_of_filter in Hp as [Hw Hp].
    apply bool_decide_eq_true in Heq. exists p. split_and!; [done| |done].
    by apply Is_true_true.
  - intros [Hnull (p & Hp & Hw & Heq)]. split; [by destruct (cell r (col_name c))|].
    exists p. split; [|by apply bool_decide_eq_true].
    apply list_elem_of_In, list_elem_of_filter. split; [by apply Is_true_true|done].
Qed.

Lemma referrers_patients :
  referrers Base_metadata "patients"
  = [ ("family_members",
       Col "patient_id" UUID (Some (FK "patients" "id" (Some CASCADE))) [nullable false]);
      ("appointments",
       Col "patient_id" UUID (Some (FK "patients" "id" (Some CASCADE))) [nullable false]);
      ("medical_records",
       Col "patient_id" UUID (Some (FK "patients" "id" (Some CASCADE))) [nullable false]);
      ("patient_material_assignments",
       Col "patient_id" UUID (Some (FK "patients" "id" (Some CASCADE))) [nullable false]) ].
Proof. vm_compute; reflexivity. Qed.

Lemma referrers_specialists :
  referrers Base_metadata "specialists"
  = [ ("appointments",
       Col "specialist_id" UUID (Some (FK "specialists" "id" (Some CASCADE))) [nullable false]);
      ("availability_blocks",
       Col "specialist_id" UUID (Some (FK "specialists" "id" (Some CASCADE))) [nullable false]);
      ("medical_records",
       Col "specialist_id" UUID (Some (FK "specialists" "id" (Some CASCADE))) [nullable false]);
      ("templates",
       Col "specialist_id" UUID (Some (FK "specialists" "id" (Some SET_NULL))) [nullable true]);
      ("educational_materials",
       Col "specialist_id" UUID (Some (FK "specialists" "id" (Some SET_NULL))) [nullable true]) ].
Proof. vm_compute; reflexivity. Qed.

Lemma referrers_leaves :
  Forall (λ t, referrers Base_metadata t = [])
    [ "family_members"; "appointments"; "medical_records"; "patient_material_assignments";
      "availability_blocks"; "templates"; "audit_logs"; "notifications" ].
Proof. repeat apply Forall_cons_2; try apply Forall_nil_2; vm_compute; reflexivity. Qed.

Lemma lookup_set_rows s t rows u :
  tables (set_rows s t rows) !! u = if decide (t = u) then Some rows else tables s !! u.
Proof. unfold set_rows. cbn [tables]. apply lookup_insert. Qed.

Ltac through_set_rows :=
  repeat (rewrite lookup_set_rows, decide_False by done); done.

Lemma delete_patient_store s (w : Row → bool) (P F A M X : list Row) :
  tables s !! "patients" = Some P →
  tables s !! "family_members" = Some F →
  tables s !! "appointments" = Some A →
  tables s !! "medical_records" = Some M →
  tables s !! "patient_material_assignments" = Some X →
  let gone := filter (λ r : Row, w r) P in
  let fk := FK "patients" "id" (Some CASCADE) in
  let c := Col "patient_id" UUID (Some fk) [nullable false] in
  let keep := λ r : Row, negb (points_at gone fk c r) in
  delete Patient w s
  = Ok (set_rows
          (set_rows
             (set_rows
                (set_rows
                   (set_rows s "patients" (filter (λ r, negb (w r)) P))
                   "family_members" (filter (λ r, keep r) F))
                "appointments" (filter (λ r, keep r) A))
             "medical_records" (filter (λ r, keep r) M))
          "patient_material_assignments" (filter (λ r, keep r) X)).
Proof.
  intros HP HF HA HM HX gone fk c keep.
  pose proof referrers_leaves as Hleaves.
  unfold delete. change (length Base_metadata) with 12%nat.
  change (tablename Patient) with "patients".
  rewrite delete_where_unfold, HP, referrers_patients.
  cbn [foldl bind snd fst col_fk ondelete].
  rewrite (delete_where_leaf _ _ _ _ _ F); [cbn [bind]|vm_compute; reflexivity|through_set_rows].
  rewrite (delete_where_leaf _ _ _ _ _ A); [cbn [bind]|vm_compute; reflexivity|through_set_rows].
  rewrite (delete_where_leaf _ _ _ _ _ M); [cbn [bind]|vm_compute; reflexivity|through_set_rows].
  rewrite (delete_where_leaf _ _ _ _ _ X); [done|vm_compute; reflexivity|through_set_rows].
Qed.

Lemma delete_specialist_store s (w : Row → bool) (S A B M Tm E : list Row) :
  tables s !! "specialists" = Some S →
  tables s !! "appointments" = Some A →
  tables s !! "availability_blocks" = Some B →
  tables s !! "medical_records" = Some M →
  tables s !! "templates" = Some Tm →
  tables s !! "educational_materials" = Some E →
  let gone := filter (λ r : Row, w r) S in
  let c := Col "specialist_id" UUID (Some (FK "specialists" "id" (Some CASCADE)))
             [nullable false] in
  let keep := λ r : Row, negb (points_at gone (FK "specialists" "id" (Some CASCADE)) c r) in
  let c0 := Col "specialist_id" UUID (Some (FK "specialists" "id" (Some SET_NULL)))
              [nullable true] in
  let clear := set_null c0 (points_at gone (FK "specialists" "id" (Some SET_NULL)) c0) in
  delete Specialist w s
  = Ok (set_rows
          (set_rows
             (set_rows
                (set_rows
                   (set_rows
                      (set_rows s "specialists" (filter (λ r, negb (w r)) S))
                      "appointments" (filter (λ r, keep r) A))
                   "availability_blocks" (filter (λ r, keep r) B))
                "medical_records" (filter (λ r, keep r) M))
             "templates" (map clear Tm))
          "educational_materials" (map clear E)).
Proof.
  intros HS HA HB HM HT HE gone c keep c0 clear.
  unfold delete. change (length Base_metadata) with 12%nat.
  change (tablename Specialist) with "specialists".
  rewrite delete_where_unfold, HS, referrers_specialists.
  cbn [foldl bind snd fst col_fk ondelete].
  rewrite (delete_where_leaf _ _ _ _ _ A); [cbn [bind]|vm_compute; reflexivity|through_set_rows].
  rewrite (delete_where_leaf _ _ _ _ _ B); [cbn [bind]|vm_compute; reflexivity|through_set_rows].
  rewrite (delete_where_leaf _ _ _ _ _ M); [cbn [bind]|vm_compute; reflexivity|through_set_rows].
  change (is_nullable (Col "specialist_id" UUID
                         (Some (FK "specialists" "id" (Some SET_NULL))) [nullable true]))
    with true.
  cbn [negb]. rewrite andb_false_r.
  rewrite (rows_of_lookup _ "templates" Tm) by through_set_rows.
  cbn [bind]. rewrite andb_false_r.
  rewrite (rows_of_lookup _ "educational_materials" E) by through_set_rows.
  done.
Qed.

Lemma Forall2_map_self {A} (P : A → A → Prop) (f : A → A) (l : list A) :
  (∀ x, P x (f x)) → Forall2 P l (map f l).
Proof. intros Hf. induction l; simpl; by constructor. Qed.

Lemma kept_rows s t (w : Row → bool) rows f c (l : list Row) r :
  tables s !! t = Some rows → fk_column f = "id" →
  r ∈ filter (λ r : Row, negb (points_at (filter (λ p : Row, w p) rows) f c r)) l
  ↔ r ∈ l ∧ ¬ refers_to_deleted s t w (col_name c) r.
Proof.
  intros Ht Hf. rewrite list_elem_of_filter, <- (points_at_refers s t w rows f c r Ht Hf).
  destruct (points_at _ f c r); simpl; naive_solver.
Qed.

(** C7. In a store where the mapped tables exist, DELETE on patients
    succeeds, removes the selected patients and removes from appointments,
    medical_records, family_members and patient_material_assignments
    exactly the rows that reference a removed patient; DELETE on
    specialists succeeds and leaves every row of templates and
    educational_materials in place, with specialist_id set to NULL in the
    rows that referenced a removed specialist and nothing changed in the
    others. *)
Theorem delete_patient_cascades_specialist_nulls s (w : Row → bool) :
  Forall (λ T, is_Some (tables s !! tablename T)) Base_metadata →
  (∃ s', delete Patient w s = Ok s'
     ∧ (∀ r, r ∈ rows_of s' "patients" ↔ r ∈ rows_of s "patients" ∧ w r = false)
     ∧ Forall (λ child, ∀ r,
                 r ∈ rows_of s' child
                 ↔ r ∈ rows_of s child ∧ ¬ refers_to_deleted s "patients" w "patient_id" r)
         ["appointments"; "medical_records"; "family_members";
          "patient_material_assignments"])
  ∧ (∃ s', delete Specialist w s = Ok s'
     ∧ Forall (λ child,
                 Forall2 (λ r r',
                    (refers_to_deleted s "specialists" w "specialist_id" r →
                     r' = <["specialist_id" := VNull]> r)
                    ∧ (¬ refers_to_deleted s "specialists" w "specialist_id" r → r' = r))
                   (rows_of s child) (rows_of s' child))
         ["templates"; "educational_materials"]).
Proof.
  intros Hall. rewrite Forall_forall in Hall.
  destruct (Hall Specialist) as [S HS]; [unfold Base_metadata; in_list|].
  destruct (Hall Patient) as [P HP]; [unfold Base_metadata; in_list|].
  destruct (Hall FamilyMember) as [F HF]; [unfold Base_metadata; in_list|].
  destruct (Hall Appointment) as [A HA]; [unfold Base_metadata; in_list|].
  destruct (Hall AvailabilityBlock) as [B HB]; [unfold Base_metadata; in_list|].
  destruct (Hall MedicalRecord) as [M HM]; [unfold Base_metadata; in_list|].
  destruct (Hall Template) as [Tm HT]; [unfold Base_metadata; in_list|].
  destruct (Hall EducationalMaterial) as [E HE]; [unfold Base_metadata; in_list|].
  destruct (Hall PatientMaterialAssignment) as [X HX]; [unfold Base_metadata; in_list|].
  change (tablename _) with "specialists" in HS. change (tablename _) with "patients" in HP.
  change (tablename _) with "family_members" in HF.
  change (tablename _) with "appointments" in HA.
  change (tablename _) with "availability_blocks" in HB.
  change (tablename _) with "medical_records" in HM.
  change (tablename _) with "templates" in HT.
  change (tablename _) with "educational_materials" in HE.
  change (tablename _) with "patient_material_assignments" in HX.
  split.
  - eexists. split; [exact (delete_patient_store s w P F A M X HP HF HA HM HX)|]. split.
    + intros r. rewrite !rows_of_set_rows. repeat (rewrite decide_False by done).
      rewrite decide_True by done. rewrite (rows_of_lookup _ _ _ HP), list_elem_of_filter.
      destruct (w r); simpl; naive_solver.
    + repeat apply Forall_cons_2; try apply Forall_nil_2; intros r;
        rewrite !rows_of_set_rows; repeat (rewrite decide_False by done);
        rewrite decide_True by done.
      * rewrite (rows_of_lookup _ _ _ HA). by apply (kept_rows s "patients" w P).
      * rewrite (rows_of_lookup _ _ _ HM). by apply (kept_rows s "patients" w P).
      * rewrite (rows_of_lookup _ _ _ HF). by apply (kept_rows s "patients" w P).
      * rewrite (rows_of_lookup _ _ _ HX). by apply (kept_rows s "patients" w P).
  - eexists. split; [exact (delete_specialist_store s w S A B M Tm E HS HA HB HM HT HE)|].
    assert (∀ l : list Row,
              Forall2 (λ r r',
                 (refers_to_deleted s "specialists" w "specialist_id" r →
                  r' = <["specialist_id" := VNull]> r)
                 ∧ (¬ refers_to_deleted s "specialists" w "specialist_id" r → r' = r))
                l (map (set_null
                          (Col "specialist_id" UUID
                             (Some (FK "specialists" "id" (Some SET_NULL))) [nullable true])
                          (points_at (filter (λ r : Row, w r) S)
                             (FK "specialists" "id" (Some SET_NULL))
                             (Col "specialist_id" UUID
                                (Some (FK "specialists" "id" (Some SET_NULL)))
                                [nullable true]))) l)) as Hmap.
    { intros l. apply Forall2_map_self. intros r. unfold set_null.
      pose proof (points_at_refers s "specialists" w S
                    (FK "specialists" "id" (Some SET_NULL))
                    (Col "specialist_id" UUID
                       (Some (FK "specialists" "id" (Some SET_NULL))) [nullable true])
                    r HS eq_refl) as Hiff.
      cbn [col_name] in *. destruct (points_at _ _ _ r); split; intros Href.
      - done.
      - exfalso. apply Href. by apply Hiff.
      - apply Hiff in Href. done.
      - done. }
    repeat apply Forall_cons_2; try apply Forall_nil_2;
      rewrite !rows_of_set_rows; repeat (rewrite decide_False by done);
      try rewrite decide_True by done.
    + rewrite (rows_of_lookup _ _ _ HT). apply Hmap.
    + rewrite (rows_of_lookup _ _ _ HE). apply Hmap.
Qed.
End Cascades.

Lemma delete_patient_cascades_specialist_nulls_witness :
  Forall (λ T, is_Some (tables booked_store !! tablename T))
    (Base_metadata (H := reference_env))
  ∧ ∃ s', delete (H := reference_env) Patient patient_201 booked_store = Ok s'
          ∧ rows_of s' "appointments" = [].
Proof.
  assert (Forall (λ T, is_Some (tables booked_store !! tablename T))
            (Base_metadata (H := reference_env))) as Hall.
  { unfold Base_metadata. repeat apply Forall_cons_2; try apply Forall_nil_2;
      apply (bool_decide_unpack _); vm_compute; reflexivity. }
  split; [exact Hall|].
  destruct (delete_patient_cascades_specialist_nulls (H := reference_env)
              booked_store patient_201 Hall) as [(s' & Hdel & _ & _) _].
  exists s'. split; [exact Hdel|].
  apply (bool_decide_unpack _).
  assert (the_store (delete (H := reference_env) Patient patient_201 booked_store) = s')
    as <- by (by rewrite Hdel).
  vm_compute; reflexivity.
Defined.

(** ** The sample-data seeder *)

Section SeederFacts.
Context `{Collaborators}.

Lemma insert_keeps_rows T kw s r s' t x :
  insert T kw s = Ok (r, s') → x ∈ rows_of s t → x ∈ rows_of s' t.
Proof.
  intros Hins Hx. rewrite (insert_rows_of _ _ _ _ _ t Hins).
  case_decide; [|done]. apply elem_of_app. by left.
Qed.

Lemma insert_stores_row T kw s r s' :
  insert T kw s = Ok (r, s') → r ∈ rows_of s' (tablename T).
Proof.
  intros Hins. rewrite (insert_rows_of _ _ _ _ _ (tablename T) Hins).
  rewrite decide_True by done. apply elem_of_app. right. apply list_elem_of_here.
Qed.

(** A flush only adds rows. *)
Lemma flush_keeps_rows objs s idm s' idm' t x :
  flush objs s idm = Ok (s', idm') → x ∈ rows_of s t → x ∈ rows_of s' t.
Proof.
  revert s idm. induction objs as [|obj objs IH]; intros s idm; simpl.
  { by intros [= <- <-]. }
  destruct (idm !! obj) as [[T kw]|]; [|by apply IH].
  destruct (insert T kw s) as [[r s1]|] eqn:Hins; [|done]. simpl.
  intros Hfl Hx. eapply IH; [exact Hfl|]. by eapply insert_keeps_rows.
Qed.

Lemma flush_head objs obj s idm s' idm' T kw :
  idm !! obj = Some (T, kw) →
  flush (obj :: objs) s idm = Ok (s', idm') →
  ∃ r s1, insert T kw s = Ok (r, s1) ∧ r ∈ rows_of s' (tablename T).
Proof.
  intros Hobj. simpl. rewrite Hobj.
  destruct (insert T kw s) as [[r s1]|] eqn:Hins; [|done]. simpl.
  intros Hfl. exists r, s1. split; [done|].
  eapply flush_keeps_rows; [exact Hfl|]. by eapply insert_stores_row.
Qed.

Lemma flush_head_refused objs obj s idm T kw e :
  idm !! obj = Some (T, kw) → insert T kw s = Err e →
  flush (obj :: objs) s idm = Err e.
Proof. intros Hobj Hins. simpl. by rewrite Hobj, Hins. Qed.

Lemma commit_Ok st st' u :
  commit st = (st', Ok u) →
  ∃ idm', flush (pending st) (store st) (identity st) = Ok (store st', idm').
Proof.
  unfold commit. destruct (flush _ _ _) as [[s' idm']|e]; [|done].
  intros [= <- _]. by exists idm'.
Qed.

(** The admin row of the seeder passes the row-level checks of users as
    soon as the hash fits its column. *)
Lemma admin_row_checked s :
  (String.length (generate_password_hash "admin123") ≤ 255)%nat →
  row_violation User (fill (columns User) (list_to_map admin_user_kwargs) s).1 = None.
Proof.
  intros Hlen. apply row_violation_None.
  set (r := (fill (columns User) (list_to_map admin_user_kwargs) s).1).
  assert (cell r "password_hash" = VStr (generate_password_hash "admin123")) as Hhash
    by (vm_compute; reflexivity).
  unfold User. cbn [columns table_args]. split.
  - repeat apply Forall_cons_2; try apply Forall_nil_2; cbn [col_name col_type];
      (split;
       [ first [ by vm_compute
               | rewrite Hhash; cbn [has_type]; by apply bool_decide_eq_true ]
       | intros Hn; first [ by vm_compute in Hn | by vm_compute ] ]).
  - apply Forall_cons_2; [|apply Forall_nil_2]. by vm_compute.
Qed.

(** Once a user with the admin's email is stored, the seeder's first
    INSERT is refused on the unique email. *)
Lemma admin_insert_refused s r0 :
  (String.length (generate_password_hash "admin123") ≤ 255)%nat →
  r0 ∈ rows_of s "users" → cell r0 "email" = VStr "admin@medicalcenter.com" →
  VUuid (uuid4 (draws s)) ∉ map (λ r, cell r "id") (rows_of s "users") →
  insert User (list_to_map admin_user_kwargs) s = Err (UniqueViolation "users" ["email"]).
Proof.
  intros Hlen Hr0 Hemail Hfresh. unfold insert.
  change (tablename User) with "users".
  destruct (tables s !! "users") as [existing|] eqn:Ht;
    [|unfold rows_of in Hr0; rewrite Ht in Hr0; by apply elem_of_nil in Hr0].
  rewrite (rows_of_lookup _ _ _ Ht) in Hr0, Hfresh.
  assert (known_columns User (list_to_map admin_user_kwargs) = true) as ->
    by (vm_compute; reflexivity).
  cbn [negb].
  pose proof (admin_row_checked s Hlen) as Hrv.
  assert (cell (fill (columns User) (list_to_map admin_user_kwargs) s).1 "id"
          = VUuid (uuid4 (draws s))) as Hid by (vm_compute; reflexivity).
  assert (cell (fill (columns User) (list_to_map admin_user_kwargs) s).1 "email"
          = VStr "admin@medicalcenter.com") as Hmail by (vm_compute; reflexivity).
  destruct (fill (columns User) (list_to_map admin_user_kwargs) s) as [r s1].
  cbn [fst] in Hrv, Hid, Hmail. rewrite Hrv.
  unfold unique_violation. change (unique_keys User) with [["id"]; ["email"]].
  cbn [List.find].
  assert (existsb (same_key ["id"] r) existing = false) as ->.
  { apply not_true_is_false. intros (x & Hx & Hsame)%existsb_exists.
    apply Hfresh. apply list_elem_of_fmap. exists x. split; [|by apply list_elem_of_In].
    unfold same_key in Hsame. cbn [forallb] in Hsame.
    rewrite andb_true_r in Hsame. apply andb_true_iff in Hsame as [_ Heq].
    apply bool_decide_eq_true in Heq. by rewrite <- Heq, Hid. }
  assert (existsb (same_key ["email"] r) existing = true) as ->; [|done].
  apply existsb_exists. exists r0. split; [by apply list_elem_of_In|].
  apply same_key_agree; (apply Forall_cons_2; [|apply Forall_nil_2]).
  - by rewrite Hmail.
  - by rewrite Hmail, Hemail.
Qed.

(** C8. When a run of create_sample_data on a store succeeds, a second
    run on the store it leaves fails: its first INSERT, the admin user, is
    refused with the unique violation on users.email, the error is raised
    out of the first commit and the store stays as the first run left it.
    (The identifier drawn for the rejected row is taken not to collide
    with a stored one, or the primary key would be reported first.) *)
Theorem create_sample_data_twice s st1 :
  create_sample_data (session s) = (st1, Ok ()) →
  VUuid (uuid4 (draws (store st1)))
    ∉ map (λ r, cell r "id") (rows_of (store st1) "users") →
  ∃ st2, create_sample_data (session (store st1))
         = (st2, Err (UniqueViolation "users" ["email"]))
         ∧ store st2 = store st1.
Proof.
  intros Hrun Hfresh.
  assert (∃ r0, r0 ∈ rows_of (store st1) "users"
                ∧ cell r0 "email" = VStr "admin@medicalcenter.com"
                ∧ (String.length (generate_password_hash "admin123") ≤ 255)%nat)
    as (r0 & Hr0 & Hemail & Hlen).
  { unfold create_sample_data, then_, new, add, attr in Hrun.
    cbn [session store identity pending length app fst snd] in Hrun.
    destruct (commit _) as [st' [[]|e]] eqn:Hc1 in Hrun; [|done].
    apply commit_Ok in Hc1 as (idm' & Hfl1). cbn [store identity pending] in Hfl1.
    eapply (flush_head _ _ _ _ _ _ User (list_to_map admin_user_kwargs)) in Hfl1
      as (r0 & s1 & Hins & Hr0); [|reflexivity].
    destruct (commit _) as [st'' [[]|e]] eqn:Hc2 in Hrun; [|done].
    injection Hrun as <-.
    apply commit_Ok in Hc2 as (idm'' & Hfl2). cbn [store identity pending] in Hfl2.
    exists r0. split_and!.
    - eapply flush_keeps_rows; [exact Hfl2|exact Hr0].
    - apply insert_Ok in Hins as (_ & _ & -> & _). by vm_compute.
    - apply insert_Ok in Hins as (_ & _ & Hr & Hrv & _).
      pose proof (column_row_violation _ _
                    (Col "password_hash" (String_ 255) None [nullable false]) Hrv) as [Hty _];
        [unfold User; cbn [columns In]; tauto|].
      cbn [col_name col_type] in Hty. rewrite Hr in Hty.
      assert (cell (fill (columns User) (list_to_map admin_user_kwargs) s).1 "password_hash"
              = VStr (generate_password_hash "admin123")) as Hhash
        by (vm_compute; reflexivity).
      rewrite Hhash in Hty. cbn [has_type] in Hty. by apply bool_decide_eq_true in Hty. }
  pose proof (admin_insert_refused _ _ Hlen Hr0 Hemail Hfresh) as Hrefused.
  eexists. split.
  - unfold create_sample_data, then_, new, add, attr.
    cbn [session store identity pending length app fst snd].
    unfold commit at 1. cbn [store identity pending].
    erewrite flush_head_refused; [reflexivity|reflexivity|exact Hrefused].
  - reflexivity.
Qed.
End SeederFacts.

Lemma create_sample_data_twice_witness :
  create_sample_data (H := reference_env) (session created_store) = (seeded_session, Ok ())
  ∧ ∃ st2, create_sample_data (H := reference_env) (session (store seeded_session))
           = (st2, Err (UniqueViolation "users" ["email"]))
           ∧ store st2 = store seeded_session.
Proof.
  assert (create_sample_data (H := reference_env) (session created_store)
          = (seeded_session, Ok ())) as Hrun by (vm_compute; reflexivity).
  split; [exact Hrun|].
  apply (create_sample_data_twice (H := reference_env) created_store seeded_session Hrun).
  apply (bool_decide_unpack _). vm_compute; reflexivity.
Defined.

(** ** Table lifecycle helpers *)

Section Lifecycle.
Context `{Collaborators}.

Lemma create_all_spec md s :
  ∃ s', create_all md true s = Ok s'
        ∧ now s' = now s ∧ draws s' = draws s
        ∧ ∀ t, tables s' !! t
               = match tables s !! t with
                 | Some rows => Some rows
                 | None => if decide (t ∈ map tablename md) then Some [] else None
                 end.
Proof.
  unfold create_all. revert s. induction md as [|T md IH]; intros s.
  { exists s. split_and!; [done..|]. intros t. destruct (tables s !! t); [done|].
    case_decide as Hin; [by apply elem_of_nil in Hin|done]. }
  cbn [foldl bind map].
  destruct (tables s !! tablename T) as [rows|] eqn:Ht.
  - destruct (IH s) as (s' & Hrun & Hnow & Hdraws & Htab).
    exists s'. split_and!; [done..|]. intros t. rewrite Htab.
    destruct (tables s !! t) eqn:Et; [done|].
    repeat case_decide; try done; set_solver.
  - destruct (IH (set_rows s (tablename T) [])) as (s' & Hrun & Hnow & Hdraws & Htab).
    exists s'. split_and!; [done..|]. intros t. rewrite Htab, lookup_set_rows.
    repeat case_decide; subst; rewrite ?Ht; try done; try set_solver.
Qed.

Lemma drop_all_spec md s :
  ∃ s', drop_all md true s = Ok s'
        ∧ now s' = now s ∧ draws s' = draws s
        ∧ ∀ t, tables s' !! t
               = if decide (t ∈ map tablename md) then None else tables s !! t.
Proof.
  unfold drop_all.
  assert (∀ l s, ∃ s', foldl (λ acc T,
                   let* s' := acc in
                   match tables s' !! tablename T with
                   | Some _ => Ok (mkStore (base.delete (tablename T) (tables s'))
                                     (now s') (draws s'))
                   | None => Ok s'
                   end) (Ok s) l = Ok s'
          ∧ now s' = now s ∧ draws s' = draws s
          ∧ ∀ t, tables s' !! t
                 = if decide (t ∈ map tablename l) then None else tables s !! t) as Hgen.
  { intros l. induction l as [|T l IH]; intros s0.
    { exists s0. split_and!; [done..|]. intros t.
      case_decide as Hin; [by apply elem_of_nil in Hin|done]. }
    cbn [foldl bind map].
    destruct (tables s0 !! tablename T) as [rows|] eqn:Ht.
    - destruct (IH (mkStore (base.delete (tablename T) (tables s0)) (now s0) (draws s0)))
        as (s' & Hrun & Hnow & Hdraws & Htab).
      exists s'. split_and!; [done..|]. intros t. rewrite Htab. cbn [tables].
      rewrite lookup_delete.
      repeat case_decide; subst; try done; set_solver.
    - destruct (IH s0) as (s' & Hrun & Hnow & Hdraws & Htab).
      exists s'. split_and!; [done..|]. intros t. rewrite Htab.
      repeat case_decide; subst; try done; set_solver. }
  destruct (Hgen (rev md) s) as (s' & Hrun & Hnow & Hdraws & Htab).
  exists s'. split_and!; [done..|]. intros t. rewrite Htab, map_rev.
  destruct (decide (t ∈ map tablename md)) as [Hin|Hnin].
  - rewrite decide_True; [done|].
    by rewrite list_elem_of_In, <- in_rev, <- list_elem_of_In.
  - rewrite decide_False; [done|].
    by rewrite list_elem_of_In, <- in_rev, <- list_elem_of_In.
Qed.

Lemma store_eq s s' :
  tables s' = tables s → now s' = now s → draws s' = draws s → s' = s.
Proof. destruct s, s'. simpl. by intros -> -> ->. Qed.

(** C9 (as amended). create_tables never fails: it keeps every table that
    exists with its rows, creates the mapped tables that are missing,
    empty, and changes nothing when all of them exist.  drop_tables never
    fails: it removes the mapped tables, leaves every other table alone
    and changes nothing when none of the mapped tables exists. *)
Theorem table_lifecycle s :
  (∃ s', create_tables s = Ok s'
         ∧ (∀ t rows, tables s !! t = Some rows → tables s' !! t = Some rows)
         ∧ Forall (λ T, tables s !! tablename T = None →
                        tables s' !! tablename T = Some []) Base_metadata
         ∧ (Forall (λ T, is_Some (tables s !! tablename T)) Base_metadata → s' = s))
  ∧ (∃ s', drop_tables s = Ok s'
           ∧ Forall (λ T, tables s' !! tablename T = None) Base_metadata
           ∧ (∀ t, t ∉ map tablename Base_metadata → tables s' !! t = tables s !! t)
           ∧ (Forall (λ T, tables s !! tablename T = None) Base_metadata → s' = s)).
Proof.
  unfold create_tables, drop_tables, checkfirst_default. split.
  - destruct (create_all_spec Base_metadata s) as (s' & Hrun & Hnow & Hdraws & Htab).
    exists s'. split_and!; [done| | |].
    + intros t rows Ht. by rewrite Htab, Ht.
    + apply Forall_forall. intros T HT Ht. rewrite Htab, Ht.
      rewrite decide_True; [done|]. by apply list_elem_of_fmap_2.
    + intros Hall. apply store_eq; [|done..]. apply map_eq. intros t. rewrite Htab.
      destruct (tables s !! t) eqn:Et; [done|].
      case_decide as Hin; [|done].
      apply list_elem_of_fmap in Hin as (T & -> & HT).
      rewrite Forall_forall in Hall. destruct (Hall T HT) as [rows Hrows]. congruence.
  - destruct (drop_all_spec Base_metadata s) as (s' & Hrun & Hnow & Hdraws & Htab).
    exists s'. split_and!; [done| | |].
    + apply Forall_forall. intros T HT. rewrite Htab.
      rewrite decide_True; [done|]. by apply list_elem_of_fmap_2.
    + intros t Ht. rewrite Htab. by rewrite decide_False.
    + intros Hnone. apply store_eq; [|done..]. apply map_eq. intros t. rewrite Htab.
      case_decide as Hin; [|done].
      apply list_elem_of_fmap in Hin as (T & -> & HT).
      rewrite Forall_forall in Hnone. by rewrite (Hnone T HT).
Qed.
End Lifecycle.

(** C9 as first stated fails: on a store whose tables exist (and hold the
    seeder's rows) create_tables raises nothing and returns the store as
    it is. *)
Lemma create_tables_on_existing_tables :
  Forall (λ T, is_Some (tables seeded_store !! tablename T))
    (Base_metadata (H := reference_env))
  ∧ create_tables (H := reference_env) seeded_store = Ok seeded_store.
Proof.
  split.
  - unfold Base_metadata. repeat apply Forall_cons_2; try apply Forall_nil_2;
      apply (bool_decide_unpack _); vm_compute; reflexivity.
  - vm_compute; reflexivity.
Qed.

(** * Further properties of the declarations and the storage layer *)

Section AllTables.
Context `{Collaborators}.









End AllTables.

Section FurtherInvariants.
Context `{Collaborators}.


End FurtherInvariants.

Lemma reachable_booked_store : reachable (H := reference_env) booked_store.
Proof.
  eapply (reachable_step (INSERT Appointment manual_appointment));
    [apply reachable_staffed_store|unfold declared, Base_metadata; in_list|].
  apply ok_the_store. vm_compute; reflexivity.
Qed.


(** ** Invariants of all twelve tables *)

Section AllTablesInvariants.
Context `{Collaborators}.







End AllTablesInvariants.

(** ** Keys, types and NOT NULL in every table *)

Section KeysAndTypes.
Context `{Collaborators}.






End KeysAndTypes.






(** ** Referential integrity *)

Section References.
Context `{Collaborators}.



















End References.


(** ** What a DELETE leaves behind *)

Section DeletedRows.
Context `{Collaborators}.




(** ** Why a DELETE is refused *)




End DeletedRows.

(** ** What INSERT and UPDATE write *)

Section Written.
Context `{Collaborators}.











(** ** Dropped tables *)

End Written.

Lemma reachable_later_store : reachable (H := reference_env) later_store.
Proof.
  eapply (reachable_step (ELAPSE 3600)); [apply reachable_booked_store|exact I|].
  apply ok_the_store. vm_compute; reflexivity.
Qed.





